(** * Ireland hotel scraper: a shallow embedding of [booking_scraper.py]

    The development follows the source file top-down:

    - [Py]: the fragment of the Python runtime the scraper relies on
      (exceptions, [str] as a sequence of code points, [str.strip],
      [str.split], [str.isdigit], [float]);
    - [Re]: the regular expression [(\d+\.\d+|\d+)] and [re.findall];
    - [Selenium]: the browser driver as an interface;
    - [HotelScraper]: the class itself, one definition per method;
    - [Site], [Scenario]: a scripted driver and concrete sites, used to
      run the scraper;
    - [Spec]: the pure components in the specification's wording;
    - [Trace]: what a run did, read from its driver calls;
    - the properties of the normalizer, of the extraction of fields,
      cards and pages, and of the pagination loop. *)

From Stdlib Require Import List ZArith NArith PArith Lia Bool String Ascii.
From Stdlib Require Import Floats.SpecFloat Floats.PrimFloat Floats.FloatOps.
Import ListNotations.

Set Implicit Arguments.

(* ================================================================== *)
(** * Python runtime fragment *)
(* ================================================================== *)

Module Py.

(** ** Exceptions and results

    Every exception below derives from [Exception]; the Selenium ones
    derive from [WebDriverException].  [except Exception] therefore
    catches all of them, [except TimeoutException] and
    [except NoSuchElementException] exactly one constructor each. *)
Inductive exn : Type :=
| ValueError
| TypeError
| IndexError
| NoSuchElementException
| TimeoutException
| StaleElementReferenceException
| WebDriverException.

Definition exn_eqb (a b : exn) : bool :=
  match a, b with
  | ValueError, ValueError
  | TypeError, TypeError
  | IndexError, IndexError
  | NoSuchElementException, NoSuchElementException
  | TimeoutException, TimeoutException
  | StaleElementReferenceException, StaleElementReferenceException
  | WebDriverException, WebDriverException => true
  | _, _ => false
  end.

Inductive result (A : Type) : Type :=
| Ok (a : A)
| Raise (e : exn).
Arguments Ok {A} a.
Arguments Raise {A} e.

Definition is_ok {A} (r : result A) : bool :=
  match r with Ok _ => true | Raise _ => false end.

(** Sequencing of computations that may raise. *)
Definition and_then {A B} (r : result A) (k : A -> result B) : result B :=
  match r with
  | Ok a => k a
  | Raise e => Raise e
  end.

Declare Scope py_scope.
Delimit Scope py_scope with py.
Notation "'let?' x ':=' r 'in' k" := (and_then r (fun x => k))
  (at level 10, x name, r at level 100, k at level 200) : py_scope.

(** ** Strings

    A Python [str] is a sequence of Unicode code points. *)
Definition codepoint := N.
Definition str := list codepoint.

(** An ASCII literal of the source, read as code points. *)
Definition lit (s : string) : str :=
  List.map N_of_ascii (list_ascii_of_string s).

Definition str_eqb (a b : str) : bool :=
  if list_eq_dec N.eq_dec a b then true else false.

(** Truth value of a string: [if s] / [if not s]. *)
Definition truthy (s : str) : bool :=
  match s with [] => false | _ :: _ => true end.

(** ** Character classes (Unicode 14.0, as shipped with CPython 3.11)

    Each table lists inclusive code point ranges. *)
Definition in_ranges (tbl : list (N * N)) (c : codepoint) : bool :=
  existsb (fun r => (fst r <=? c)%N && (c <=? snd r)%N) tbl.

(** [str.isspace]. *)
Definition space_ranges : list (N * N) :=
  [ (9, 13); (28, 32); (133, 133); (160, 160); (5760, 5760); (8192, 8202); (8232, 8233);
    (8239, 8239); (8287, 8287); (12288, 12288) ]%N.

(** [str.isdecimal], general category Nd; also what [\d] matches and what
    [float] accepts as a digit.  Every range starts at a digit zero and
    runs through whole decades. *)
Definition decimal_ranges : list (N * N) :=
  [ (48, 57); (1632, 1641); (1776, 1785); (1984, 1993); (2406, 2415); (2534, 2543);
    (2662, 2671); (2790, 2799); (2918, 2927); (3046, 3055); (3174, 3183); (3302, 3311);
    (3430, 3439); (3558, 3567); (3664, 3673); (3792, 3801); (3872, 3881); (4160, 4169);
    (4240, 4249); (6112, 6121); (6160, 6169); (6470, 6479); (6608, 6617); (6784, 6793);
    (6800, 6809); (6992, 7001); (7088, 7097); (7232, 7241); (7248, 7257); (42528, 42537);
    (43216, 43225); (43264, 43273); (43472, 43481); (43504, 43513); (43600, 43609);
    (44016, 44025); (65296, 65305); (66720, 66729); (68912, 68921); (69734, 69743);
    (69872, 69881); (69942, 69951); (70096, 70105); (70384, 70393); (70736, 70745);
    (70864, 70873); (71248, 71257); (71360, 71369); (71472, 71481); (71904, 71913);
    (72016, 72025); (72784, 72793); (73040, 73049); (73120, 73129); (92768, 92777);
    (92864, 92873); (93008, 93017); (120782, 120831); (123200, 123209); (123632, 123641);
    (125264, 125273); (130032, 130041) ]%N.

(** Characters with Numeric_Type=Digit that are not decimal: superscripts,
    subscripts, circled and dingbat digits and the like.  [str.isdigit]
    accepts them, [float] and [\d] do not. *)
Definition other_digit_ranges : list (N * N) :=
  [ (178, 179); (185, 185); (4969, 4977); (6618, 6618); (8304, 8304); (8308, 8313);
    (8320, 8329); (9312, 9320); (9332, 9340); (9352, 9360); (9450, 9450); (9461, 9469);
    (9471, 9471); (10102, 10110); (10112, 10120); (10122, 10130); (68160, 68163);
    (69216, 69224); (69714, 69722); (127232, 127242) ]%N.

Definition isspace (c : codepoint) : bool := in_ranges space_ranges c.
Definition isdecimal (c : codepoint) : bool := in_ranges decimal_ranges c.
Definition isdigit (c : codepoint) : bool :=
  isdecimal c || in_ranges other_digit_ranges c.

(** The ASCII digits ['0'..'9']. *)
Definition is_ascii_digit (c : codepoint) : bool := (48 <=? c)%N && (c <=? 57)%N.

(** Value of a decimal digit character ([unicodedata.decimal]). *)
Definition decimal_value (c : codepoint) : option N :=
  match List.find (fun r => (fst r <=? c)%N && (c <=? snd r)%N) decimal_ranges with
  | Some (lo, _) => Some ((c - lo) mod 10)%N
  | None => None
  end.

Definition dot : codepoint := 46%N.

(** ** [str.strip()] and [str.split()] without arguments *)
Fixpoint lstrip (s : str) : str :=
  match s with
  | c :: s' => if isspace c then lstrip s' else s
  | [] => []
  end.

Definition rstrip (s : str) : str := rev (lstrip (rev s)).

Definition strip (s : str) : str := rstrip (lstrip s).

(** [split_go acc s]: [acc] holds the current word, reversed. *)
Fixpoint split_go (acc : str) (s : str) : list str :=
  match s with
  | [] => match acc with [] => [] | _ :: _ => [rev acc] end
  | c :: s' =>
      if isspace c
      then match acc with
           | [] => split_go [] s'
           | _ :: _ => rev acc :: split_go [] s'
           end
      else split_go (c :: acc) s'
  end.

Definition split (s : str) : list str := split_go [] s.

(** ** Floats

    A Python [float] is an IEEE 754 binary64 value. *)
Definition pyfloat := spec_float.

Definition prec : Z := 53.
Definition emax : Z := 1024.

Definition zero : pyfloat := S754_zero false.
Definition inf : pyfloat := S754_infinity false.

Definition isfinite (x : pyfloat) : bool :=
  match x with
  | S754_zero _ | S754_finite _ _ _ => true
  | S754_infinity _ | S754_nan => false
  end.

Definition isnan (x : pyfloat) : bool :=
  match x with S754_nan => true | _ => false end.

(** The binary64 value nearest to [m / 10^k] (ties to even), the
    conversion [float] applies to a decimal numeral with digits [m] and
    [k] digits after the point.  Magnitudes beyond the largest finite
    double give infinity: [float] raises no [OverflowError] on strings. *)
Definition float_of_decimal (m : N) (k : nat) : pyfloat :=
  let '(q, e, l) :=
    SFdiv_core_binary prec emax (Z.of_N m) 0 (10 ^ Z.of_nat k) 0 in
  binary_round_aux prec emax false q e l.

(** Leading decimal digits of [s], and what follows them. *)
Fixpoint span_decimal (s : str) : str * str :=
  match s with
  | c :: s' =>
      if isdecimal c
      then let '(ds, r) := span_decimal s' in (c :: ds, r)
      else ([], s)
  | [] => ([], [])
  end.

(** The number written by a run of decimal digit characters. *)
Fixpoint digits_value (acc : N) (ds : str) : N :=
  match ds with
  | [] => acc
  | c :: ds' =>
      digits_value (10 * acc + match decimal_value c with Some d => d | None => 0 end) ds'
  end.

(** [float(s)] on the strings the scraper passes to it: characters for
    which [isdigit] holds, and dots.  Such a string is a float literal
    exactly when it consists of decimal digits with at most one dot and at
    least one digit ([digitpart ["."] [digitpart]] or ["." digitpart]);
    everything else raises [ValueError].  Signs, exponents, underscores,
    surrounding blanks and the words [inf] and [nan] cannot occur in these
    strings and are left out. *)
Definition float (s : str) : result pyfloat :=
  let '(ip, r) := span_decimal s in
  match r with
  | [] =>
      match ip with
      | [] => Raise ValueError
      | _ :: _ => Ok (float_of_decimal (digits_value 0 ip) 0)
      end
  | c :: r' =>
      if (c =? dot)%N
      then let '(fp, r'') := span_decimal r' in
           match r'', ip ++ fp with
           | [], _ :: _ => Ok (float_of_decimal (digits_value 0 (ip ++ fp)) (List.length fp))
           | _, _ => Raise ValueError
           end
      else Raise ValueError
  end.

(** [try: body  except (e1, e2, ...): handler] on a pure computation. *)
Definition try_except {A} (body : result A) (caught : exn -> bool) (handler : exn -> result A)
  : result A :=
  match body with
  | Ok a => Ok a
  | Raise e => if caught e then handler e else Raise e
  end.

End Py.

(* ================================================================== *)
(** * The pattern [(\d+\.\d+|\d+)] and [re.findall] *)
(* ================================================================== *)

Module Re.
Import Py.

(** A backtracking matcher: given the text at the current position it
    returns what remains after each way of matching, most preferred
    first. *)
Definition matcher := str -> list str.

(** [\d+], greedy: the longest run first, then shorter ones. *)
Fixpoint digits_plus (s : str) : list str :=
  match s with
  | c :: s' => if isdecimal c then digits_plus s' ++ [s'] else []
  | [] => []
  end.

(** A literal character. *)
Definition chr (a : codepoint) : matcher :=
  fun s => match s with
           | c :: s' => if (c =? a)%N then [s'] else []
           | [] => []
           end.

Definition seq (p q : matcher) : matcher := fun s => flat_map q (p s).
Definition alt (p q : matcher) : matcher := fun s => p s ++ q s.

(** [(\d+\.\d+|\d+)]: the single group spans the whole match. *)
Definition number_pattern : matcher :=
  alt (seq digits_plus (seq (chr dot) digits_plus)) digits_plus.

(** The match starting at the head of [s], if any: matched text and rest. *)
Definition match_at (p : matcher) (s : str) : option (str * str) :=
  match p s with
  | rest :: _ => Some (firstn (List.length s - List.length rest) s, rest)
  | [] => None
  end.

(** [re.findall] for a pattern that matches no empty string: scan left to
    right, resume after each match.  Every step consumes a character, so
    [length s] steps suffice. *)
Fixpoint findall_fuel (fuel : nat) (p : matcher) (s : str) : list str :=
  match fuel with
  | O => []
  | S fuel' =>
      match match_at p s with
      | Some (m, rest) => m :: findall_fuel fuel' p rest
      | None =>
          match s with
          | [] => []
          | _ :: s' => findall_fuel fuel' p s'
          end
      end
  end.

Definition findall (p : matcher) (s : str) : list str :=
  findall_fuel (S (List.length s)) p s.

End Re.

(* ================================================================== *)
(** * The browser driver *)
(* ================================================================== *)

Module Selenium.
Import Py.

(** An element located inside a card.  Reading [.text] is a call to the
    browser and may fail (for instance on a stale reference). *)
Record WebElement : Type := { text : result str }.

(** A result card: the outcome of [card.find_element(By.CSS_SELECTOR, sel)]
    for every selector.  [Raise NoSuchElementException] is "no match". *)
Record Card : Type := { find_element : string -> result WebElement }.

(** Handle of a clickable control returned by a wait. *)
Definition Handle := N.

Definition Timestamp := Z.

(** The operations the scraper invokes on its driver, its
    [WebDriverWait] and the clock, over a world [W] they act on.
    A wait raises [TimeoutException] when its condition does not come
    true in time; every operation may raise other exceptions. *)
Record Driver (W : Type) : Type := {
  get : str -> W -> result unit * W;
  wait_presence : string -> W -> result unit * W;
  wait_clickable : string -> W -> result Handle * W;
  find_elements : string -> W -> result (list Card) * W;
  click : Handle -> W -> result unit * W;
  execute_script_click : Handle -> W -> result unit * W;
  now : W -> Timestamp
}.

(** The driver calls of a run, in the order they are issued. *)
Inductive Call : Type :=
| CallGet (url : str)
| CallWaitPresence (selector : string)
| CallWaitClickable (selector : string)
| CallFindElements (selector : string) (found : result (list Card))
| CallClick (h : Handle)
| CallExecuteScriptClick (h : Handle).

End Selenium.

(* ================================================================== *)
(** * class HotelScraper *)
(* ================================================================== *)

Module HotelScraper.
Import Py Selenium.

(** The dictionary built by [_extract_single_hotel]. *)
Record Hotel : Type := {
  hotel_name : str;
  price : pyfloat;
  rating : pyfloat;
  location : str;
  review_count : str;
  distance : str
}.

(** A row of the data frame: the record and its [scraped_at] stamp. *)
Record Row : Type := { row_hotel : Hotel; scraped_at : Timestamp }.

(** [pd.DataFrame]: its rows in index order; [pd.DataFrame()] is empty. *)
Definition DataFrame := list Row.

(** Log records of the module-level [logger]. *)
Inductive level : Type := INFO | WARNING | ERROR.

Inductive message : Type :=
| MsgInitialized
| MsgCookiesAccepted
| MsgNoCookieBanner
| MsgCouldNotHandleCookies (e : exn)
| MsgStartingScraping (url : str)
| MsgScrapingPage (page_plus_1 max_pages : Z)
| MsgNoHotelCards (page_plus_1 : Z)
| MsgExtractedHotels (page_hotels : Z) (page_plus_1 : Z)
| MsgNoMorePages
| MsgScrapingCompleted (total : nat)
| MsgErrorDuringScraping (e : exn)
| MsgFoundCards (n : nat)
| MsgFailedToExtractCard (i_plus_1 : nat) (e : exn)
| MsgErrorScrapingPage (e : exn)
| MsgErrorExtractingSingleHotel (e : exn)
| MsgNavigatedToNextPage
| MsgNoNextPageButton
| MsgErrorNavigating (e : exn)
| MsgNoDataCollected
| MsgCreatedDataFrame (rows : nat).

Definition LogRecord : Type := level * message.

(** ** Pure helpers: [_safe_extract_text], [_clean_price], [_clean_rating] *)

Definition is_NoSuchElementException (e : exn) : bool := exn_eqb e NoSuchElementException.
Definition is_TimeoutException (e : exn) : bool := exn_eqb e TimeoutException.
Definition is_Exception (e : exn) : bool := true.
Definition is_conversion_error (e : exn) : bool :=
  exn_eqb e ValueError || exn_eqb e TypeError || exn_eqb e IndexError.

Definition _safe_extract_text (parent_element : Card) (css_selector : string) : result str :=
  try_except
    (let? element := find_element parent_element css_selector in
     let? t := text element in
     Ok (strip t))%py
    is_NoSuchElementException
    (fun _ => Ok []).

Definition _clean_price (price_text : str) : result pyfloat :=
  try_except
    (if negb (truthy price_text) then Ok zero
     else
       let cleaned := filter (fun char => isdigit char || (char =? dot)%N) price_text in
       let numbers := split cleaned in
       match numbers with
       | n0 :: _ => Py.float n0
       | [] => Ok zero
       end)
    is_conversion_error
    (fun _ => Ok zero).

Definition _clean_rating (rating_text : str) : result pyfloat :=
  try_except
    (if negb (truthy rating_text) then Ok zero
     else
       let numbers := Re.findall Re.number_pattern rating_text in
       match numbers with
       | n0 :: _ => Py.float n0
       | [] => Ok zero
       end)
    is_conversion_error
    (fun _ => Ok zero).

(** The selectors of the source. *)
Definition card_selector : string := "[data-testid='property-card']".
Definition title_selector : string := "[data-testid='title']".
Definition price_selector : string := "[data-testid='price-and-discounted-price']".
Definition rating_selector : string := "[data-testid='review-score']".
Definition location_selector : string := "[data-testid='location']".
Definition review_count_selector : string := "[data-testid='review-score'] div:last-child".
Definition distance_selector : string := "[data-testid='distance']".

Definition cookie_selectors : list string :=
  [ "button#onetrust-accept-btn-handler";
    "button[id='onetrust-accept-btn-handler']";
    "button[aria-label*='cookie']";
    "button[class*='cookie']";
    "button[data-testid*='cookie']" ]%string.

Definition next_selectors : list string :=
  [ "button[aria-label*='Next']";
    "a[aria-label*='Next']";
    "button[data-testid*='next']";
    "a[data-testid*='next']";
    "div[data-testid='pagination'] a:last-child" ]%string.

(** The body of [_extract_single_hotel]'s [try]: the six fields in source
    order; the first exception abandons the record. *)
Definition extract_fields (card : Card) : result Hotel :=
  (let? name := _safe_extract_text card title_selector in
   let? price_text := _safe_extract_text card price_selector in
   let? price_ := _clean_price price_text in
   let? rating_text := _safe_extract_text card rating_selector in
   let? rating_ := _clean_rating rating_text in
   let? location_ := _safe_extract_text card location_selector in
   let? review_count_ := _safe_extract_text card review_count_selector in
   let? distance_ := _safe_extract_text card distance_selector in
   Ok {| hotel_name := name; price := price_; rating := rating_;
         location := location_; review_count := review_count_;
         distance := distance_ |})%py.

(** ** The scraper object and its methods

    [State] holds what the methods read and write: the browser session
    behind [self.driver] and [self.wait], the list [self.data], the log,
    and the history of driver calls.  A method is a function from the
    state to an outcome and a new state; a raised exception keeps the
    mutations made before it. *)
Section Methods.

Variable W : Type.
Variable drv : Driver W.

Record State : Type := {
  browser : W;
  data : list Hotel;
  log : list LogRecord;
  calls : list Call
}.

Definition M (A : Type) : Type := State -> result A * State.

Definition ret {A} (a : A) : M A := fun s => (Ok a, s).

Definition bind {A B} (m : M A) (k : A -> M B) : M B :=
  fun s => match m s with
           | (Ok a, s') => k a s'
           | (Raise e, s') => (Raise e, s')
           end.

Definition lift {A} (r : result A) : M A := fun s => (r, s).

(** [try: body  except <caught> as e: handler e] *)
Definition try_catch {A} (body : M A) (caught : exn -> bool) (handler : exn -> M A) : M A :=
  fun s => match body s with
           | (Ok a, s') => (Ok a, s')
           | (Raise e, s') => if caught e then handler e s' else (Raise e, s')
           end.

Declare Scope scraper_scope.
Delimit Scope scraper_scope with scraper.
Notation "x <- m ;; k" := (bind m (fun x => k))
  (at level 100, m at next level, right associativity) : scraper_scope.
Notation "m ;; k" := (bind m (fun _ => k))
  (at level 100, right associativity) : scraper_scope.
Local Open Scope scraper_scope.

Definition logger (l : level) (m : message) : M unit :=
  fun s => (Ok tt, {| browser := browser s; data := data s;
                      log := log s ++ [(l, m)]; calls := calls s |}).

(** A call to the driver: the world moves on and the call is recorded. *)
Definition driver_call {A} (op : W -> result A * W) (ev : result A -> Call) : M A :=
  fun s => let '(r, w) := op (browser s) in
           (r, {| browser := w; data := data s; log := log s;
                  calls := calls s ++ [ev r] |}).

Definition driver_get (url : str) : M unit :=
  driver_call (get drv url) (fun _ => CallGet url).
Definition wait_until_presence (sel : string) : M unit :=
  driver_call (wait_presence drv sel) (fun _ => CallWaitPresence sel).
Definition wait_until_clickable (sel : string) : M Handle :=
  driver_call (wait_clickable drv sel) (fun _ => CallWaitClickable sel).
Definition driver_find_elements (sel : string) : M (list Card) :=
  driver_call (find_elements drv sel) (fun r => CallFindElements sel r).
Definition element_click (h : Handle) : M unit :=
  driver_call (click drv h) (fun _ => CallClick h).
Definition driver_execute_script_click (h : Handle) : M unit :=
  driver_call (execute_script_click drv h) (fun _ => CallExecuteScriptClick h).

(** [self.data.append(h)] and [len(self.data)]. *)
Definition data_append (h : Hotel) : M unit :=
  fun s => (Ok tt, {| browser := browser s; data := data s ++ [h];
                      log := log s; calls := calls s |}).
Definition len_data : M nat := fun s => (Ok (List.length (data s)), s).

(** [__init__], for a session [w] that [setup_driver] has created. *)
Definition __init__ (w : W) : State :=
  {| browser := w; data := []; log := [(INFO, MsgInitialized)]; calls := [] |}.

(** [accept_cookies]: the [for] loop over the candidate selectors, then
    the method with its outer handler.  [time.sleep] has no effect on the
    state. *)
Fixpoint accept_cookies_loop (selectors : list string) : M bool :=
  match selectors with
  | [] => logger INFO MsgNoCookieBanner ;; ret false
  | selector :: rest =>
      returned <- try_catch
                    (cookie_button <- wait_until_clickable selector ;;
                     element_click cookie_button ;;
                     logger INFO MsgCookiesAccepted ;;
                     ret true)
                    is_TimeoutException
                    (fun _ => ret false) ;;
      if returned then ret true else accept_cookies_loop rest
  end.

Definition accept_cookies : M bool :=
  try_catch (accept_cookies_loop cookie_selectors)
            is_Exception
            (fun e => logger WARNING (MsgCouldNotHandleCookies e) ;; ret false).

(** [_extract_single_hotel]: [None] when anything was raised. *)
Definition _extract_single_hotel (card : Card) : M (option Hotel) :=
  try_catch (hotel_data <- lift (extract_fields card) ;; ret (Some hotel_data))
            is_Exception
            (fun e => logger WARNING (MsgErrorExtractingSingleHotel e) ;; ret None).

(** The loop [for i, card in enumerate(hotel_cards)] of
    [_scrape_current_page]. *)
Fixpoint scrape_cards (i : nat) (hotel_cards : list Card) : M unit :=
  match hotel_cards with
  | [] => ret tt
  | card :: rest =>
      try_catch
        (hotel_data <- _extract_single_hotel card ;;
         match hotel_data with
         | Some h => if truthy (hotel_name h) then data_append h else ret tt
         | None => ret tt
         end)
        is_Exception
        (fun e => logger WARNING (MsgFailedToExtractCard (i + 1) e)) ;;
      scrape_cards (S i) rest
  end.

Definition _scrape_current_page : M Z :=
  hotels_before <- len_data ;;
  try_catch
    (hotel_cards <- driver_find_elements card_selector ;;
     logger INFO (MsgFoundCards (List.length hotel_cards)) ;;
     scrape_cards 0 hotel_cards ;;
     hotels_after <- len_data ;;
     ret (Z.of_nat hotels_after - Z.of_nat hotels_before)%Z)
    is_Exception
    (fun e => logger ERROR (MsgErrorScrapingPage e) ;; ret 0%Z).

(** [_go_to_next_page] *)
Fixpoint next_page_loop (selectors : list string) : M bool :=
  match selectors with
  | [] => logger INFO MsgNoNextPageButton ;; ret false
  | selector :: rest =>
      returned <- try_catch
                    (next_button <- wait_until_clickable selector ;;
                     driver_execute_script_click next_button ;;
                     logger INFO MsgNavigatedToNextPage ;;
                     ret true)
                    is_TimeoutException
                    (fun _ => ret false) ;;
      if returned then ret true else next_page_loop rest
  end.

Definition _go_to_next_page : M bool :=
  try_catch (next_page_loop next_selectors)
            is_Exception
            (fun e => logger WARNING (MsgErrorNavigating e) ;; ret false).

(** [_create_dataframe]: one row per record of [self.data], stamped with
    the current time; [pd.to_numeric(...).fillna(0)] replaces NaN by 0. *)
Definition fillna0 (x : pyfloat) : pyfloat := if isnan x then zero else x.

Definition to_row (ts : Timestamp) (h : Hotel) : Row :=
  {| row_hotel := {| hotel_name := hotel_name h;
                     price := fillna0 (price h);
                     rating := fillna0 (rating h);
                     location := location h;
                     review_count := review_count h;
                     distance := distance h |};
     scraped_at := ts |}.

Definition _create_dataframe : M DataFrame :=
  fun s =>
    match data s with
    | [] => (logger WARNING MsgNoDataCollected ;; ret []) s
    | _ :: _ =>
        let df := List.map (to_row (now drv (browser s))) (data s) in
        (logger INFO (MsgCreatedDataFrame (List.length df)) ;; ret df) s
    end.

(** [scrape_hotel_data]: the body of one iteration of
    [for page in range(max_pages)], the loop, and the method. *)
Inductive loop_control : Type := Continue | Break.

Definition scrape_page (max_pages page : Z) : M loop_control :=
  logger INFO (MsgScrapingPage (page + 1) max_pages) ;;
  loaded <- try_catch
              (wait_until_presence card_selector ;; ret true)
              is_TimeoutException
              (fun _ => logger WARNING (MsgNoHotelCards (page + 1)) ;; ret false) ;;
  if negb loaded then ret Break
  else
    page_hotels <- _scrape_current_page ;;
    logger INFO (MsgExtractedHotels page_hotels (page + 1)) ;;
    if (page <? max_pages - 1)%Z
    then
      advanced <- _go_to_next_page ;;
      if negb advanced
      then logger INFO MsgNoMorePages ;; ret Break
      else ret Continue
    else ret Continue.

Fixpoint for_pages (max_pages : Z) (pages : list Z) : M unit :=
  match pages with
  | [] => ret tt
  | page :: rest =>
      c <- scrape_page max_pages page ;;
      match c with
      | Break => ret tt
      | Continue => for_pages max_pages rest
      end
  end.

(** [range(n)] *)
Definition range (n : Z) : list Z := List.map Z.of_nat (List.seq 0 (Z.to_nat n)).

(** The [try] block of [scrape_hotel_data]. *)
Definition scrape_hotel_data_body (url : str) (max_pages : Z) : M DataFrame :=
  logger INFO (MsgStartingScraping url) ;;
  driver_get url ;;
  accept_cookies ;;
  for_pages max_pages (range max_pages) ;;
  total <- len_data ;;
  logger INFO (MsgScrapingCompleted total) ;;
  _create_dataframe.

Definition scrape_hotel_data (url : str) (max_pages : Z) : M DataFrame :=
  try_catch (scrape_hotel_data_body url max_pages)
            is_Exception
            (fun e => logger ERROR (MsgErrorDuringScraping e) ;; ret []).

End Methods.

End HotelScraper.

(* ================================================================== *)
(** * A scripted site

    A concrete driver for running the scraper: the site is a list of
    result pages, the current one first; clicking a next-page control
    moves to the following page. *)
(* ================================================================== *)

Module Site.
Import Py Selenium.

Record Page : Type := {
  loads : result unit;            (* outcome of waiting for a card *)
  cards : result (list Card);     (* outcome of [find_elements] *)
  clickable : list string         (* selectors with a clickable match *)
}.

Record World : Type := {
  reachable : result unit;        (* outcome of [driver.get] *)
  pages : list Page;
  clock : Timestamp
}.

Definition on_page {A} (w : World) (f : Page -> result A) (none : result A) : result A * World :=
  match pages w with
  | p :: _ => (f p, w)
  | [] => (none, w)
  end.

Definition driver : Driver World := {|
  get := fun _ w => (reachable w, w);
  wait_presence := fun _ w => on_page w loads (Raise TimeoutException);
  wait_clickable := fun sel w =>
    on_page w (fun p => if existsb (String.eqb sel) (clickable p)
                        then Ok 0%N else Raise TimeoutException)
              (Raise TimeoutException);
  find_elements := fun _ w => on_page w cards (Ok []);
  click := fun _ w => (Ok tt, w);
  execute_script_click := fun _ w =>
    (Ok tt, {| reachable := reachable w; pages := tl (pages w); clock := clock w |});
  now := clock
|}.

(** A card given by the text of the elements it contains. *)
Fixpoint lookup (fields : list (string * result str)) (sel : string) : result WebElement :=
  match fields with
  | [] => Raise NoSuchElementException
  | (k, t) :: rest => if String.eqb k sel then Ok {| text := t |} else lookup rest sel
  end.

Definition card_of (fields : list (string * result str)) : Card :=
  {| find_element := lookup fields |}.

(** A card showing only a title. *)
Definition titled (name : string) : Card :=
  card_of [(HotelScraper.title_selector, Ok (lit name))].

(** A card whose title lookup fails with a stale reference. *)
Definition stale_card : Card :=
  {| find_element := fun _ => Raise StaleElementReferenceException |}.

Definition page_of (cs : list Card) (next : bool) : Page :=
  {| loads := Ok tt; cards := Ok cs;
     clickable := if next then ["button[aria-label*='Next']"%string] else [] |}.

Definition site (ps : list Page) : World :=
  {| reachable := Ok tt; pages := ps; clock := 0%Z |}.

End Site.

(** ** Concrete sites *)
Module Scenario.
Import Py Selenium HotelScraper Site.

Definition url : str := lit "https://www.booking.com/searchresults.html?ss=Ireland".

(** A page on which the session is lost while waiting for the cards. *)
Definition broken_page : Page :=
  {| loads := Raise WebDriverException; cards := Ok []; clickable := [] |}.

(** One listing on the first page; the session dies on the second. *)
Definition dying_site : World := site [page_of [titled "A"] true; broken_page].

(** Three pages of two listings, each with a next-page control. *)
Definition three_pages : World :=
  site [ page_of [titled "A"; titled "B"] true;
         page_of [titled "C"; titled "D"] true;
         page_of [titled "E"; titled "F"] true ].

(** One page of three listings and no next-page control. *)
Definition single_page : World :=
  site [ page_of [titled "A"; titled "B"; titled "C"] false ].

(** The same listing on two consecutive pages. *)
Definition repeating_site : World :=
  site [ page_of [titled "A"] true; page_of [titled "A"] false ].

Definition run (w : World) (max_pages : Z) : result DataFrame * State World :=
  scrape_hotel_data driver url max_pages (__init__ w).

Definition names (s : State World) : list str := List.map hotel_name (data s).

End Scenario.

(* ================================================================== *)
(** * The specification's wording of the pure components

    [parsePrice], [parseRating] and [resolve] as the specification
    describes them, for comparison with the methods above. *)
(* ================================================================== *)

Module Spec.
Import Py Selenium.

Definition parse_or_zero (token : str) : pyfloat :=
  match Py.float token with
  | Ok v => v
  | Raise _ => zero
  end.

(** "strips every character that is not a decimal digit or a decimal
    point, then parses the resulting token as a float; returns 0.0 on
    empty input or parse failure" *)
Definition parsePrice (text : str) : pyfloat :=
  parse_or_zero (filter (fun c => isdecimal c || (c =? dot)%N) text).

(** The first substring of [text] that is an integer or decimal numeral:
    it starts at the first decimal digit, takes the digits that follow,
    and a fraction when a dot and at least one digit come next. *)
Fixpoint first_numeral (text : str) : option str :=
  match text with
  | [] => None
  | c :: rest =>
      if isdecimal c
      then let '(ip, r) := span_decimal text in
           match r with
           | d :: r' =>
               if (d =? dot)%N
               then match fst (span_decimal r') with
                    | [] => Some ip
                    | fp => Some (ip ++ dot :: fp)
                    end
               else Some ip
           | [] => Some ip
           end
      else first_numeral rest
  end.

(** "scans the text for the first substring matching an integer or
    decimal numeral pattern and parses it; returns 0.0 if none found" *)
Definition parseRating (text : str) : pyfloat :=
  match first_numeral text with
  | Some numeral => parse_or_zero numeral
  | None => zero
  end.

(** "Tries each candidate selector in the spec's declared order; on the
    first that matches, returns its trimmed text content; if all
    candidates are exhausted, returns empty string" *)
Fixpoint resolve (container : Card) (selectorSpec : list string) : str :=
  match selectorSpec with
  | [] => []
  | candidate :: rest =>
      match find_element container candidate with
      | Ok element =>
          match text element with
          | Ok t => strip t
          | Raise _ => resolve container rest
          end
      | Raise _ => resolve container rest
      end
  end.

End Spec.

(* ================================================================== *)
(** * Reading a run from its driver calls *)
(* ================================================================== *)

Module Trace.
Import Py Selenium HotelScraper.

(** The records one card contributes to [self.data]. *)
Definition listing (card : Card) : list Hotel :=
  match extract_fields card with
  | Ok h => if truthy (hotel_name h) then [h] else []
  | Raise _ => []
  end.

(** The records a page contributes, in document order. *)
Definition listings (cards : list Card) : list Hotel := flat_map listing cards.

Definition page_listings (found : result (list Card)) : list Hotel :=
  match found with
  | Ok cards => listings cards
  | Raise _ => []
  end.

(** The records contributed by the pages enumerated during a run, page
    after page. *)
Definition extracted (tr : list Call) : list Hotel :=
  flat_map (fun c => match c with
                     | CallFindElements _ found => page_listings found
                     | _ => []
                     end) tr.

(** A fetch: the wait for the cards of a page. *)
Definition is_fetch (c : Call) : bool :=
  match c with CallWaitPresence _ => true | _ => false end.

Definition is_next_selector (sel : string) : bool :=
  existsb (String.eqb sel) next_selectors.

(** A call made by [_go_to_next_page]. *)
Definition is_next_page_call (c : Call) : bool :=
  match c with
  | CallWaitClickable sel => is_next_selector sel
  | CallExecuteScriptClick _ => true
  | _ => false
  end.

(** The first call of every invocation of [_go_to_next_page]. *)
Definition first_next_selector : string := "button[aria-label*='Next']".

Definition is_next_page_attempt (c : Call) : bool :=
  match c with
  | CallWaitClickable sel => String.eqb sel first_next_selector
  | _ => false
  end.

Definition fetches (tr : list Call) : nat := List.length (filter is_fetch tr).

Definition next_page_attempts (tr : list Call) : nat :=
  List.length (filter is_next_page_attempt tr).

(** The calls issued after the last fetch. *)
Definition since_last_fetch (tr : list Call) : list Call :=
  fold_left (fun acc c => if is_fetch c then [] else acc ++ [c]) tr [].

(** A card whose extraction raises. *)
Definition faulty (card : Card) : bool := negb (is_ok (extract_fields card)).

(** A card whose extraction yields a record with a name. *)
Definition named (card : Card) : bool :=
  match extract_fields card with
  | Ok h => truthy (hotel_name h)
  | Raise _ => false
  end.

(** The warnings logged for the faulty cards of a page. *)
Definition card_warnings (cards : list Card) : list LogRecord :=
  flat_map (fun card => match extract_fields card with
                        | Ok _ => []
                        | Raise e => [(WARNING, MsgErrorExtractingSingleHotel e)]
                        end) cards.

End Trace.

(* ================================================================== *)
(** * Properties of the runtime fragment *)
(* ================================================================== *)

Section CharacterClasses.
Import Py.

(** The code points of a table, listed. *)
Definition enumerate_ranges (tbl : list (N * N)) : list N :=
  flat_map (fun r => List.map N.of_nat
                       (List.seq (N.to_nat (fst r)) (N.to_nat (snd r - fst r + 1)))) tbl.

Lemma in_ranges_enumerate (tbl : list (N * N)) (c : codepoint) :
  in_ranges tbl c = true -> In c (enumerate_ranges tbl).
Proof.
  unfold in_ranges, enumerate_ranges.
  rewrite existsb_exists. intros [[lo hi] [Hin Hc]]. cbn [fst snd] in Hc.
  apply andb_true_iff in Hc. destruct Hc as [Hlo Hhi].
  apply N.leb_le in Hlo. apply N.leb_le in Hhi.
  apply in_flat_map. exists (lo, hi). split; [exact Hin|]. cbn [fst snd].
  apply in_map_iff. exists (N.to_nat c). split; [apply N2Nat.id|].
  apply in_seq. lia.
Qed.

Lemma isspace_not_isdigit (c : codepoint) : isspace c = true -> isdigit c = false.
Proof.
  intro H. apply in_ranges_enumerate in H.
  assert (A : forallb (fun x => negb (isdigit x)) (enumerate_ranges space_ranges) = true)
    by (vm_compute; reflexivity).
  rewrite forallb_forall in A. specialize (A c H).
  now apply negb_true_iff in A.
Qed.

Lemma isspace_not_dot (c : codepoint) : isspace c = true -> (c =? dot)%N = false.
Proof.
  intro H. apply in_ranges_enumerate in H.
  assert (A : forallb (fun x => negb (x =? dot)%N) (enumerate_ranges space_ranges) = true)
    by (vm_compute; reflexivity).
  rewrite forallb_forall in A. specialize (A c H).
  now apply negb_true_iff in A.
Qed.

Lemma isdecimal_isdigit (c : codepoint) : isdecimal c = true -> isdigit c = true.
Proof. intro H. unfold isdigit. now rewrite H. Qed.

Lemma isdecimal_not_dot (c : codepoint) : isdecimal c = true -> (c =? dot)%N = false.
Proof.
  intro H. destruct (c =? dot)%N eqn:E; [|reflexivity].
  apply N.eqb_eq in E. subst c. vm_compute in H. discriminate.
Qed.

(** A character kept by [_clean_price] is no white space. *)
Lemma kept_not_space (c : codepoint) :
  isdigit c || (c =? dot)%N = true -> isspace c = false.
Proof.
  intro H. destruct (isspace c) eqn:E; [|reflexivity].
  rewrite (isspace_not_isdigit _ E), (isspace_not_dot _ E) in H. discriminate.
Qed.

Lemma split_go_no_space (s acc : str) :
  Forall (fun c => isspace c = false) s ->
  split_go acc s = match rev acc ++ s with [] => [] | w => [w] end.
Proof.
  revert acc. induction s as [|c s IH]; intros acc Hs.
  - cbn. rewrite app_nil_r. destruct acc as [|a acc]; [reflexivity|].
    cbn. destruct (rev acc ++ [a]) eqn:E; [|reflexivity].
    now apply app_eq_nil in E.
  - inversion Hs as [|? ? Hc Hs']; subst. cbn [split_go]. rewrite Hc.
    rewrite (IH (c :: acc) Hs'). cbn [rev]. now rewrite <- app_assoc.
Qed.

(** [split] leaves a string without white space in one piece. *)
Lemma split_no_space (s : str) :
  Forall (fun c => isspace c = false) s ->
  split s = match s with [] => [] | _ => [s] end.
Proof.
  intro H. unfold split. rewrite (split_go_no_space [] H).
  destruct s; reflexivity.
Qed.

End CharacterClasses.

(* ================================================================== *)
(** * Properties of the normalizer *)
(* ================================================================== *)

Section Normalizer.
Import Py HotelScraper.

Lemma float_outcome (s : str) :
  (exists m k, Py.float s = Ok (float_of_decimal m k)) \/ Py.float s = Raise ValueError.
Proof.
  unfold Py.float.
  destruct (span_decimal s) as [ip r].
  destruct r as [|c r'].
  - destruct ip; [now right | left; eauto].
  - destruct (c =? dot)%N; [|now right].
    destruct (span_decimal r') as [fp r''].
    destruct r''; [|now right].
    destruct (ip ++ fp); [now right | left; eauto].
Qed.

(** Whatever [float] raises is caught by the normalizers' handler. *)
Lemma try_float_or_zero (s : str) :
  try_except (Py.float s) is_conversion_error (fun _ => Ok zero)
  = Ok (Spec.parse_or_zero s).
Proof.
  unfold Spec.parse_or_zero.
  destruct (float_outcome s) as [(m & k & E) | E]; rewrite E; reflexivity.
Qed.

Definition kept (char : codepoint) : bool := isdigit char || (char =? dot)%N.

Lemma cleaned_no_space (text : str) :
  Forall (fun c => isspace c = false) (filter kept text).
Proof.
  apply Forall_forall. intros c Hc. apply filter_In in Hc.
  apply kept_not_space. apply Hc.
Qed.

(** [_clean_price] parses the kept characters as one token. *)
Lemma clean_price_eq (price_text : str) :
  _clean_price price_text = Ok (Spec.parse_or_zero (filter kept price_text)).
Proof.
  unfold _clean_price. fold kept.
  destruct price_text as [|c rest]; [reflexivity|].
  cbn [truthy negb].
  rewrite (split_no_space (cleaned_no_space (c :: rest))).
  destruct (filter kept (c :: rest)) as [|d cleaned] eqn:E; [reflexivity|].
  apply try_float_or_zero.
Qed.

End Normalizer.

Section Pattern.
Import Py HotelScraper.

Definition starts_decimal (s : str) : bool :=
  match s with c :: _ => isdecimal c | [] => false end.

Lemma span_decimal_app (s : str) :
  fst (span_decimal s) ++ snd (span_decimal s) = s.
Proof.
  induction s as [|c s IH]; [reflexivity|]. cbn [span_decimal].
  destruct (isdecimal c); [|reflexivity].
  destruct (span_decimal s) as [ds r]. cbn in *. now rewrite IH.
Qed.

Lemma span_decimal_rest (s : str) : starts_decimal (snd (span_decimal s)) = false.
Proof.
  induction s as [|c s IH]; [reflexivity|]. cbn [span_decimal].
  destruct (isdecimal c) eqn:E.
  - destruct (span_decimal s) as [ds r]. exact IH.
  - cbn. exact E.
Qed.

Lemma span_decimal_digits (s : str) :
  Forall (fun c => isdecimal c = true) (fst (span_decimal s)).
Proof.
  induction s as [|c s IH]; [constructor|]. cbn [span_decimal].
  destruct (isdecimal c) eqn:E; [|constructor].
  destruct (span_decimal s) as [ds r]. cbn in *. now constructor.
Qed.

Lemma span_decimal_stop (s : str) :
  starts_decimal s = false -> span_decimal s = ([], s).
Proof.
  destruct s as [|c s]; [reflexivity|]. cbn. now intros ->.
Qed.

(** Digits followed by something that is no digit: the split is found. *)
Lemma span_decimal_exact (ds r : str) :
  Forall (fun c => isdecimal c = true) ds -> starts_decimal r = false ->
  span_decimal (ds ++ r) = (ds, r).
Proof.
  intros Hds Hr. induction Hds as [|c ds Hc _ IH].
  - now apply span_decimal_stop.
  - cbn [app span_decimal]. now rewrite Hc, IH.
Qed.

(** The ways [\\d+] matches: the whole run of digits first; every other
    way stops in front of a digit. *)
Lemma digits_plus_shape (s : str) :
  match Re.digits_plus s with
  | [] => starts_decimal s = false
  | r :: others =>
      starts_decimal s = true /\ r = snd (span_decimal s) /\
      Forall (fun x => starts_decimal x = true) others
  end.
Proof.
  induction s as [|c s IH]; [reflexivity|].
  cbn [Re.digits_plus span_decimal starts_decimal].
  destruct (isdecimal c) eqn:E; [|reflexivity].
  destruct (Re.digits_plus s) as [|r others].
  - cbn. rewrite (span_decimal_stop _ IH). auto.
  - destruct IH as (Hs & Hr & Ho). cbn.
    destruct (span_decimal s) as [ds r0]. cbn in *. subst r0.
    repeat split; auto. apply Forall_app. auto.
Qed.

Lemma dot_digits_blocked (others : list str) :
  Forall (fun x => starts_decimal x = true) others ->
  flat_map (Re.seq (Re.chr dot) Re.digits_plus) others = [].
Proof.
  induction 1 as [|x others Hx _ IH]; [reflexivity|].
  cbn [flat_map]. rewrite IH, app_nil_r.
  destruct x as [|c x]; [discriminate|]. cbn in Hx.
  unfold Re.seq, Re.chr. now rewrite (isdecimal_not_dot _ Hx).
Qed.

Lemma firstn_prefix (a b : str) : firstn (List.length (a ++ b) - List.length b) (a ++ b) = a.
Proof.
  rewrite length_app, Nat.add_sub. rewrite firstn_app, Nat.sub_diag, firstn_all.
  cbn. apply app_nil_r.
Qed.

(** The preferred match of the pattern at a digit is the longest numeral
    that starts there. *)
Lemma match_at_number (s : str) :
  Re.match_at Re.number_pattern s =
  if starts_decimal s
  then let '(ip, r) := span_decimal s in
       match r with
       | d :: r' =>
           if (d =? dot)%N
           then match span_decimal r' with
                | ([], _) => Some (ip, r)
                | (fp, r'') => Some (ip ++ dot :: fp, r'')
                end
           else Some (ip, r)
       | [] => Some (ip, r)
       end
  else None.
Proof.
  unfold Re.match_at, Re.number_pattern, Re.alt. unfold Re.seq at 1.
  pose proof (digits_plus_shape s) as H.
  pose proof (span_decimal_app s) as Happ.
  destruct (Re.digits_plus s) as [|r others].
  - now rewrite H.
  - destruct H as (Hs & Hr & Ho). rewrite Hs.
    cbn [flat_map]. rewrite (dot_digits_blocked Ho), app_nil_r.
    destruct (span_decimal s) as [ip r0]. cbn [fst snd] in *. subst r0.
    assert (Plain : firstn (List.length s - List.length r) s = ip)
      by (rewrite <- Happ; apply firstn_prefix).
    destruct r as [|d r']; [cbn [Re.seq Re.chr flat_map app]; now rewrite Plain|].
    unfold Re.seq at 1. cbn [Re.chr].
    destruct (d =? dot)%N eqn:Ed; [|cbn [flat_map app]; now rewrite Plain].
    apply N.eqb_eq in Ed. subst d.
    cbn [flat_map]. rewrite app_nil_r.
    pose proof (digits_plus_shape r') as H'.
    pose proof (span_decimal_app r') as Happ'.
    destruct (Re.digits_plus r') as [|r2 others'].
    + rewrite (span_decimal_stop _ H'). cbn [app]. now rewrite Plain.
    + destruct H' as (Hs' & Hr' & _). cbn [app].
      destruct (span_decimal r') as [fp r''] eqn:E'. cbn [fst snd] in *. subst r2.
      destruct fp as [|f fp].
      { cbn in Happ'. subst r''. destruct r' as [|x r']; [discriminate|].
        cbn in Hs', E'. rewrite Hs' in E'. destruct (span_decimal r'); discriminate. }
      f_equal. f_equal. rewrite <- Happ, <- Happ'.
      replace (ip ++ dot :: (f :: fp) ++ r'') with ((ip ++ dot :: f :: fp) ++ r'')
        by (rewrite <- app_assoc; reflexivity).
      apply firstn_prefix.
Qed.

Lemma findall_first (text : str) (fuel : nat) :
  List.length text < fuel ->
  hd_error (Re.findall_fuel fuel Re.number_pattern text) = Spec.first_numeral text.
Proof.
  revert fuel. induction text as [|c rest IH]; intros fuel Hlen.
  - destruct fuel; [inversion Hlen|]. reflexivity.
  - destruct fuel as [|fuel]; [inversion Hlen|].
    cbn [Re.findall_fuel Spec.first_numeral].
    rewrite match_at_number. cbn [starts_decimal].
    destruct (isdecimal c) eqn:E.
    + destruct (span_decimal (c :: rest)) as [ip r].
      destruct r as [|d r']; [reflexivity|].
      destruct (d =? dot)%N; [|reflexivity].
      destruct (span_decimal r') as [fp r'']. cbn [fst].
      destruct fp; reflexivity.
    + apply IH. cbn in Hlen. lia.
Qed.

(** A numeral found by the scan is always accepted by [float]. *)
Lemma first_numeral_parses (text numeral : str) :
  Spec.first_numeral text = Some numeral -> exists v, Py.float numeral = Ok v.
Proof.
  induction text as [|c rest IH]; [discriminate|].
  cbn [Spec.first_numeral].
  destruct (isdecimal c) eqn:E; [|exact IH].
  pose proof (span_decimal_digits (c :: rest)) as Hip.
  assert (Hne : fst (span_decimal (c :: rest)) <> []).
  { cbn [span_decimal]. rewrite E. destruct (span_decimal rest). discriminate. }
  destruct (span_decimal (c :: rest)) as [ip r]. cbn [fst] in *.
  assert (Int : exists v, Py.float ip = Ok v).
  { unfold Py.float.
    pose proof (@span_decimal_exact ip [] Hip eq_refl) as X.
    rewrite app_nil_r in X. rewrite X.
    destruct ip; [contradiction|eauto]. }
  destruct r as [|d r']; [intros [= <-]; exact Int|].
  destruct (d =? dot)%N; [|intros [= <-]; exact Int].
  pose proof (span_decimal_digits r') as Hfp.
  destruct (fst (span_decimal r')) as [|f fp]; [intros [= <-]; exact Int|].
  intros [= <-]. unfold Py.float.
  rewrite (@span_decimal_exact ip (dot :: f :: fp) Hip eq_refl).
  cbn [N.eqb dot Pos.eqb].
  pose proof (@span_decimal_exact (f :: fp) [] Hfp eq_refl) as X.
  rewrite app_nil_r in X. rewrite X.
  destruct (ip ++ f :: fp) eqn:Ex; [|eauto].
  now apply app_eq_nil in Ex.
Qed.

(** [_clean_rating] is the specification's [parseRating]. *)
Lemma clean_rating_eq (rating_text : str) :
  _clean_rating rating_text = Ok (Spec.parseRating rating_text).
Proof.
  unfold _clean_rating, Spec.parseRating.
  destruct rating_text as [|c rest]; [reflexivity|].
  cbn [truthy negb].
  rewrite <- (@findall_first (c :: rest) _ (Nat.lt_succ_diag_r _)).
  fold (Re.findall Re.number_pattern (c :: rest)).
  destruct (Re.findall Re.number_pattern (c :: rest)) as [|n0 more]; [reflexivity|].
  apply try_float_or_zero.
Qed.

End Pattern.
Section Rounding.
Import Py.

(** A float that is neither NaN nor negative: zero, a positive finite
    number or plus infinity. *)
Definition nonneg_float (x : pyfloat) : bool :=
  match x with
  | S754_zero false | S754_finite false _ _ | S754_infinity false => true
  | _ => false
  end.

Lemma shr_1_halves (mrs : shr_record) :
  (0 <= shr_m mrs -> 0 <= shr_m (shr_1 mrs) /\ 2 * shr_m (shr_1 mrs) <= shr_m mrs)%Z.
Proof.
  destruct mrs as [m r s]. cbn [shr_m].
  destruct m as [|[p|p|]|p]; cbn; lia.
Qed.

Lemma iter_shr_1 (p : positive) :
  forall (mrs : shr_record),
    (0 <= shr_m mrs ->
     0 <= shr_m (iter_pos shr_1 p mrs) /\
     2 ^ Zpos p * shr_m (iter_pos shr_1 p mrs) <= shr_m mrs)%Z.
Proof.
  induction p as [p IH|p IH|]; intros mrs H; cbn [iter_pos].
  - destruct (shr_1_halves mrs H) as [H1 L1].
    destruct (IH _ H1) as [H2 L2]. destruct (IH _ H2) as [H3 L3].
    split; [exact H3|].
    assert (E : (2 ^ Zpos p~1 = 2 * (2 ^ Zpos p * 2 ^ Zpos p))%Z).
    { rewrite <- Z.pow_add_r, <- Z.pow_succ_r by lia. f_equal. lia. }
    rewrite E.
    assert (0 < 2 ^ Zpos p)%Z by (apply Z.pow_pos_nonneg; lia). nia.
  - destruct (IH _ H) as [H2 L2]. destruct (IH _ H2) as [H3 L3].
    split; [exact H3|].
    assert (E : (2 ^ Zpos p~0 = 2 ^ Zpos p * 2 ^ Zpos p)%Z).
    { rewrite <- Z.pow_add_r by lia. f_equal. lia. }
    rewrite E.
    assert (0 < 2 ^ Zpos p)%Z by (apply Z.pow_pos_nonneg; lia). nia.
  - destruct (shr_1_halves mrs H) as [H1 L1]. split; [exact H1|].
    rewrite Z.pow_1_r. exact L1.
Qed.

(** [shr_fexp] moves the exponent up to [fexp] of the magnitude and
    shrinks the mantissa accordingly. *)
Lemma shr_fexp_bound (m e : Z) (l : location) :
  (0 <= m)%Z ->
  let '(mrs, e') := shr_fexp prec emax m e l in
  (0 <= shr_m mrs /\
   e' = Z.max e (fexp prec emax (Zdigits2 m + e)) /\
   2 ^ (e' - e) * shr_m mrs <= m)%Z.
Proof.
  intro Hm. unfold shr_fexp, shr.
  assert (R : shr_m (shr_record_of_loc m l) = m) by (destruct l as [|[]]; reflexivity).
  destruct (fexp prec emax (Zdigits2 m + e) - e)%Z as [|p|p] eqn:E.
  - rewrite R. replace (Z.max e (fexp prec emax (Zdigits2 m + e))) with e by lia.
    rewrite Z.sub_diag, Z.pow_0_r. lia.
  - pose proof (@iter_shr_1 p (shr_record_of_loc m l)) as I. rewrite R in I.
    destruct (I Hm) as [I1 I2].
    replace (Z.max e (fexp prec emax (Zdigits2 m + e))) with (e + Zpos p)%Z by lia.
    replace (e + Zpos p - e)%Z with (Zpos p) by lia. auto.
  - rewrite R. replace (Z.max e (fexp prec emax (Zdigits2 m + e))) with e by lia.
    rewrite Z.sub_diag, Z.pow_0_r. lia.
Qed.

Lemma round_nearest_even_bound (m : Z) (l : location) :
  (0 <= m -> 0 <= round_nearest_even m l <= m + 1)%Z.
Proof.
  intro H. destruct l as [|[]]; cbn [round_nearest_even]; try lia.
  destruct (Z.even m); lia.
Qed.

Lemma binary_round_aux_nonneg (m e : Z) (l : location) :
  (0 <= m)%Z -> nonneg_float (binary_round_aux prec emax false m e l) = true.
Proof.
  intro Hm. unfold binary_round_aux.
  pose proof (shr_fexp_bound e l Hm) as B1.
  destruct (shr_fexp prec emax m e l) as [mrs1 e1]. destruct B1 as (P1 & _ & _).
  pose proof (round_nearest_even_bound (loc_of_shr_record mrs1) P1) as [P2 _].
  pose proof (shr_fexp_bound e1 loc_Exact P2) as B2.
  destruct (shr_fexp prec emax _ e1 loc_Exact) as [mrs2 e2]. destruct B2 as (P3 & _ & _).
  destruct (shr_m mrs2) as [|p|p]; [reflexivity| |lia].
  destruct (e2 <=? emax - prec)%Z; reflexivity.
Qed.

Lemma div_core_quotient (M D : Z) :
  (0 <= M -> 0 < D ->
   let '(q, e, _) := SFdiv_core_binary prec emax M 0 D 0 in
   0 <= q /\ e <= 0 /\ q <= 2 ^ (- e) * M)%Z.
Proof.
  intros HM HD. unfold SFdiv_core_binary.
  set (e := Z.min (fexp prec emax (Zdigits2 M + 0 - (Zdigits2 D + 0))) (0 - 0)).
  assert (He : (e <= 0)%Z) by (subst e; lia).
  set (m' := match (0 - 0 - e)%Z with
             | 0%Z => M | Zpos _ => Z.shiftl M (0 - 0 - e) | Zneg _ => 0%Z end).
  assert (Hm' : m' = (2 ^ (- e) * M)%Z).
  { subst m'. destruct (0 - 0 - e)%Z as [|p|p] eqn:E.
    - replace (- e)%Z with 0%Z by lia. rewrite Z.pow_0_r. lia.
    - rewrite Z.shiftl_mul_pow2 by lia. replace (- e)%Z with (Zpos p) by lia. lia.
    - lia. }
  assert (Hpow : (0 < 2 ^ (- e))%Z) by (apply Z.pow_pos_nonneg; lia).
  destruct (Z.div_eucl m' D) as [q r] eqn:Eq.
  assert (Hq : q = (m' / D)%Z) by (unfold Z.div; now rewrite Eq).
  repeat split; try lia.
  - rewrite Hq. apply Z.div_pos; nia.
  - rewrite Hq, <- Hm'. apply Z.div_le_upper_bound; nia.
Qed.

Lemma float_of_decimal_nonneg (m : N) (k : nat) :
  nonneg_float (float_of_decimal m k) = true.
Proof.
  unfold float_of_decimal.
  pose proof (@div_core_quotient (Z.of_N m) (10 ^ Z.of_nat k)) as Q.
  destruct (SFdiv_core_binary prec emax (Z.of_N m) 0 (10 ^ Z.of_nat k) 0) as [[q e] l].
  apply binary_round_aux_nonneg.
  apply Q; [lia | apply Z.pow_pos_nonneg; lia].
Qed.

Lemma digits2_pos_lower (p : positive) :
  (2 ^ (Zpos (digits2_pos p) - 1) <= Zpos p)%Z.
Proof.
  induction p as [p IH|p IH|]; cbn [digits2_pos].
  - rewrite Pos2Z.inj_succ. replace (Z.succ (Zpos (digits2_pos p)) - 1)%Z
      with (Z.succ (Zpos (digits2_pos p) - 1)) by lia.
    rewrite Z.pow_succ_r by lia. lia.
  - rewrite Pos2Z.inj_succ. replace (Z.succ (Zpos (digits2_pos p)) - 1)%Z
      with (Z.succ (Zpos (digits2_pos p) - 1)) by lia.
    rewrite Z.pow_succ_r by lia. lia.
  - cbn. lia.
Qed.

Lemma Zdigits2_le (x n : Z) : (0 <= x < 2 ^ n -> 0 <= n -> Zdigits2 x <= n)%Z.
Proof.
  intros [H0 Hx] Hn. destruct x as [|p|p]; [exact Hn| |lia].
  cbn [Zdigits2]. pose proof (digits2_pos_lower p) as L.
  assert (2 ^ (Zpos (digits2_pos p) - 1) < 2 ^ n)%Z as Hlt by lia.
  apply Z.pow_lt_mono_r_iff in Hlt; lia.
Qed.

(** Below [2^1023] the conversion stays within the finite doubles. *)
Lemma float_of_decimal_finite (m : N) (k : nat) :
  (Z.of_N m < 2 ^ 1023)%Z -> isfinite (float_of_decimal m k) = true.
Proof.
  intro Hm. unfold float_of_decimal.
  pose proof (@div_core_quotient (Z.of_N m) (10 ^ Z.of_nat k)) as Q.
  destruct (SFdiv_core_binary prec emax (Z.of_N m) 0 (10 ^ Z.of_nat k) 0) as [[q e] l].
  destruct Q as (Hq & He & Hle); [lia | apply Z.pow_pos_nonneg; lia |].
  assert (Hpe : (0 < 2 ^ (- e))%Z) by (apply Z.pow_pos_nonneg; lia).
  assert (A : (q < 2 ^ (1023 - e))%Z).
  { replace (1023 - e)%Z with (- e + 1023)%Z by lia. rewrite Z.pow_add_r by lia. nia. }
  unfold binary_round_aux.
  pose proof (shr_fexp_bound e l Hq) as B1.
  destruct (shr_fexp prec emax q e l) as [mrs1 e1]. destruct B1 as (P1 & E1 & L1).
  assert (Dq : (Zdigits2 q <= 1023 - e)%Z) by (apply Zdigits2_le; lia).
  assert (He1 : (e <= e1 <= 970)%Z)
    by (subst e1; unfold fexp, emin, prec, emax; lia).
  pose proof (round_nearest_even_bound (loc_of_shr_record mrs1) P1) as [P2 U2].
  set (m2 := round_nearest_even (shr_m mrs1) (loc_of_shr_record mrs1)) in *.
  assert (C : (shr_m mrs1 < 2 ^ (1023 - e1))%Z).
  { assert (0 < 2 ^ (e1 - e))%Z by (apply Z.pow_pos_nonneg; lia).
    assert (2 ^ (1023 - e) = 2 ^ (e1 - e) * 2 ^ (1023 - e1))%Z as X
      by (rewrite <- Z.pow_add_r by lia; f_equal; lia).
    nia. }
  assert (Dm2 : (Zdigits2 m2 <= 1024 - e1)%Z).
  { apply Zdigits2_le; [|lia]. split; [exact P2|].
    replace (1024 - e1)%Z with (Z.succ (1023 - e1)) by lia.
    rewrite Z.pow_succ_r by lia.
    assert (0 < 2 ^ (1023 - e1))%Z by (apply Z.pow_pos_nonneg; lia). lia. }
  pose proof (shr_fexp_bound e1 loc_Exact P2) as B2.
  destruct (shr_fexp prec emax m2 e1 loc_Exact) as [mrs2 e2]. destruct B2 as (P3 & E2 & _).
  assert (He2 : (e2 <= emax - prec)%Z)
    by (subst e2; unfold fexp, emin, prec, emax; lia).
  destruct (shr_m mrs2) as [|p|p]; [reflexivity| |lia].
  apply Z.leb_le in He2. now rewrite He2.
Qed.

Lemma decimal_value_digit (c : codepoint) (d : N) :
  decimal_value c = Some d -> (d < 10)%N.
Proof.
  unfold decimal_value.
  destruct (find _ decimal_ranges) as [[lo hi]|]; [|discriminate].
  intros [= <-]. apply N.mod_lt. discriminate.
Qed.

Lemma digits_value_bound (ds : str) (acc : N) :
  (digits_value acc ds < (acc + 1) * 10 ^ N.of_nat (List.length ds))%N.
Proof.
  revert acc. induction ds as [|c ds IH]; intro acc.
  - cbn. lia.
  - cbn [digits_value List.length]. rewrite Nat2N.inj_succ, N.pow_succ_r'.
    eapply N.lt_le_trans; [apply IH|].
    assert (D : (match decimal_value c with Some d => d | None => 0 end < 10)%N).
    { destruct (decimal_value c) eqn:E; [eapply decimal_value_digit; eauto | lia]. }
    set (p := (10 ^ N.of_nat (List.length ds))%N). nia.
Qed.

(** At most 307 digits: the numeral is below [2^1023]. *)
Lemma short_numeral_finite (ds : str) (k : nat) :
  List.length ds <= 307 -> isfinite (float_of_decimal (digits_value 0 ds) k) = true.
Proof.
  intro H. apply float_of_decimal_finite.
  pose proof (digits_value_bound ds 0) as B.
  assert (P : (10 ^ N.of_nat (List.length ds) <= 10 ^ 307)%N)
    by (apply N.pow_le_mono_r; lia).
  assert (Q : (Z.of_N (10 ^ 307) < 2 ^ 1023)%Z) by (vm_compute; reflexivity).
  lia.
Qed.

(** What [float] returns is the conversion of digits taken from its
    argument. *)
Lemma float_value (s : str) (v : pyfloat) :
  Py.float s = Ok v ->
  exists ds k, List.length ds <= List.length s /\ v = float_of_decimal (digits_value 0 ds) k.
Proof.
  unfold Py.float. pose proof (span_decimal_app s) as A.
  destruct (span_decimal s) as [ip r]. cbn [fst snd] in A.
  destruct r as [|c r'].
  - destruct ip; [discriminate|]. intros [= <-]. exists (c :: ip), 0.
    split; [subst s; rewrite length_app; lia | reflexivity].
  - destruct (c =? dot)%N; [|discriminate].
    pose proof (span_decimal_app r') as A'.
    destruct (span_decimal r') as [fp r'']. cbn [fst snd] in A'.
    destruct r''; [|discriminate].
    destruct (ip ++ fp) eqn:E; [discriminate|]. intros [= <-].
    exists (ip ++ fp), (List.length fp). rewrite E. split; [|reflexivity].
    rewrite <- E. subst s r'. rewrite app_nil_r, !length_app. cbn. lia.
Qed.

Lemma parse_or_zero_nonneg (token : str) :
  nonneg_float (Spec.parse_or_zero token) = true.
Proof.
  unfold Spec.parse_or_zero.
  destruct (float_outcome token) as [(m & k & E) | E]; rewrite E;
    [apply float_of_decimal_nonneg | reflexivity].
Qed.

Lemma parse_or_zero_finite (token : str) :
  List.length token <= 307 -> isfinite (Spec.parse_or_zero token) = true.
Proof.
  intro H. unfold Spec.parse_or_zero.
  destruct (Py.float token) as [v|e] eqn:E; [|reflexivity].
  destruct (float_value _ E) as (ds & k & L & ->).
  apply short_numeral_finite. lia.
Qed.

Lemma first_numeral_length (text numeral : str) :
  Spec.first_numeral text = Some numeral -> List.length numeral <= List.length text.
Proof.
  induction text as [|c rest IH]; [discriminate|].
  cbn [Spec.first_numeral].
  destruct (isdecimal c); [|intro H; apply IH in H; cbn; lia].
  pose proof (span_decimal_app (c :: rest)) as A.
  destruct (span_decimal (c :: rest)) as [ip r]. cbn [fst snd] in A.
  assert (Int : List.length ip <= List.length (c :: rest))
    by (rewrite <- A, length_app; lia).
  destruct r as [|d r']; [intros [= <-]; exact Int|].
  destruct (d =? dot)%N; [|intros [= <-]; exact Int].
  pose proof (span_decimal_app r') as A'.
  destruct (span_decimal r') as [fp r'']. cbn [fst snd] in *.
  destruct fp as [|f fp]; intros [= <-]; [exact Int|].
  rewrite <- A, <- A', !length_app. cbn. rewrite !length_app. cbn. lia.
Qed.

End Rounding.
Section NormalizerClaims.
Import Py HotelScraper.
#[local] Set Warnings "-inexact-float".

(** The euro sign and the superscript two. *)
Definition euro : codepoint := 8364%N.
Definition superscript_two : codepoint := 178%N.

(** A one followed by four hundred zeros. *)
Definition long_numeral : str := 49%N :: repeat 48%N 400.

(** Texts without digit characters other than decimal ones: on these
    [_clean_price] is the specification's [parsePrice]. *)
Lemma clean_price_agrees_on_decimal_text (price_text : str) :
  Forall (fun c => isdigit c = isdecimal c) price_text ->
  _clean_price price_text = Ok (Spec.parsePrice price_text).
Proof.
  intro H. rewrite clean_price_eq. unfold Spec.parsePrice. do 2 f_equal.
  apply filter_ext_in. intros c Hc. unfold kept.
  rewrite Forall_forall in H. now rewrite (H c Hc).
Qed.

(** C6, counterexample.  On the text "5" followed by a superscript two,
    stripping every character that is no decimal digit or point leaves
    "5", which parses to 5.0; [_clean_price] keeps the superscript
    (it satisfies [str.isdigit]), [float] rejects the token, and the
    result is 0.0. *)
Lemma clean_price_superscript_counterexample :
  Spec.parsePrice [53%N; superscript_two] = Prim2SF 5%float /\
  _clean_price [53%N; superscript_two] = Ok zero /\
  _clean_price [53%N; superscript_two] <> Ok (Spec.parsePrice [53%N; superscript_two]).
Proof.
  assert (A : Spec.parsePrice [53%N; superscript_two] = Prim2SF 5%float)
    by (vm_compute; reflexivity).
  assert (B : _clean_price [53%N; superscript_two] = Ok zero)
    by (vm_compute; reflexivity).
  split; [exact A | split; [exact B|]].
  rewrite A, B. vm_compute. discriminate.
Qed.

(** C6, as amended.  For every input string [_clean_price] strips every
    character that is neither a digit in the sense of [str.isdigit] nor a
    decimal point, parses the remaining token as a float, and returns 0.0
    on empty input or parse failure; in particular it maps "" to 0.0,
    "€123.45" to 123.45 and "abc" to 0.0. *)
Theorem clean_price_spec :
  (forall price_text : str,
     _clean_price price_text =
     Ok (Spec.parse_or_zero
           (filter (fun char => isdigit char || (char =? dot)%N) price_text))) /\
  _clean_price [] = Ok zero /\
  _clean_price (euro :: lit "123.45") = Ok (Prim2SF 123.45%float) /\
  _clean_price (lit "abc") = Ok zero.
Proof.
  split; [exact clean_price_eq|].
  repeat split; vm_compute; reflexivity.
Qed.

(** C7.  For every input string [_clean_rating] returns the value of the
    first substring that is an integer or decimal numeral, and 0.0 when
    there is none: it agrees with the specification's [parseRating], the
    numeral found always parses, and "8.3 Good", "Wonderful" and "9" give
    8.3, 0.0 and 9.0. *)
Theorem clean_rating_spec :
  (forall rating_text : str,
     _clean_rating rating_text = Ok (Spec.parseRating rating_text)) /\
  (forall rating_text numeral : str,
     Spec.first_numeral rating_text = Some numeral ->
     exists v, Py.float numeral = Ok v /\ _clean_rating rating_text = Ok v) /\
  (forall rating_text : str,
     Spec.first_numeral rating_text = None -> _clean_rating rating_text = Ok zero) /\
  _clean_rating (lit "8.3 Good") = Ok (Prim2SF 8.3%float) /\
  _clean_rating (lit "Wonderful") = Ok zero /\
  _clean_rating (lit "9") = Ok (Prim2SF 9%float).
Proof.
  split; [exact clean_rating_eq|]. split; [|split].
  - intros text numeral H. destruct (first_numeral_parses _ H) as [v Hv].
    exists v. split; [exact Hv|].
    rewrite clean_rating_eq. unfold Spec.parseRating, Spec.parse_or_zero.
    now rewrite H, Hv.
  - intros text H. rewrite clean_rating_eq. unfold Spec.parseRating. now rewrite H.
  - repeat split; vm_compute; reflexivity.
Qed.

(** C8, counterexample.  On a one followed by four hundred zeros both
    functions return plus infinity, which is not a finite number. *)
Lemma normalizer_overflow_counterexample :
  _clean_price long_numeral = Ok inf /\
  _clean_rating long_numeral = Ok inf /\
  isfinite inf = false.
Proof. repeat split; vm_compute; reflexivity. Qed.

(** C8, as amended.  [_clean_price] and [_clean_rating] are total: on
    every input string neither raises, and each returns a float that is
    not NaN and not negative, that is, a finite number or plus infinity;
    the result is finite whenever the input has at most 307 characters. *)
Theorem normalizer_total (text : str) :
  exists p r : pyfloat,
    _clean_price text = Ok p /\ _clean_rating text = Ok r /\
    nonneg_float p = true /\ nonneg_float r = true /\
    (List.length text <= 307 -> isfinite p = true /\ isfinite r = true).
Proof.
  exists (Spec.parse_or_zero (filter kept text)), (Spec.parseRating text).
  split; [apply clean_price_eq|]. split; [apply clean_rating_eq|].
  assert (R : nonneg_float (Spec.parseRating text) = true).
  { unfold Spec.parseRating. destruct (Spec.first_numeral text);
      [apply parse_or_zero_nonneg | reflexivity]. }
  split; [apply parse_or_zero_nonneg|]. split; [exact R|].
  intro H. split.
  - apply parse_or_zero_finite.
    pose proof (filter_length_le kept text). lia.
  - unfold Spec.parseRating. destruct (Spec.first_numeral text) as [numeral|] eqn:E;
      [|reflexivity].
    apply parse_or_zero_finite. apply first_numeral_length in E. lia.
Qed.

End NormalizerClaims.

(* ================================================================== *)
(** * Properties of the extraction of a page *)
(* ================================================================== *)

Section CardLevel.
Import Py Selenium HotelScraper Trace.
Variable W : Type.
Variable drv : Driver W.

Lemma extract_single_hotel_run (card : Card) (s : State W) :
  _extract_single_hotel card s =
  match extract_fields card with
  | Ok h => (Ok (Some h), s)
  | Raise e => (Ok None, {| browser := browser s; data := data s;
                            log := log s ++ [(WARNING, MsgErrorExtractingSingleHotel e)];
                            calls := calls s |})
  end.
Proof.
  unfold _extract_single_hotel, try_catch, bind, lift, ret, logger.
  destruct (extract_fields card); reflexivity.
Qed.

(** The card loop appends the page's listings, logs a warning for every
    faulty card, calls no driver operation and raises nothing. *)
Lemma scrape_cards_run (cards : list Card) :
  forall (i : nat) (s : State W),
    scrape_cards i cards s =
    (Ok tt, {| browser := browser s; data := data s ++ listings cards;
               log := log s ++ card_warnings cards; calls := calls s |}).
Proof.
  induction cards as [|card rest IH]; intros i s.
  - cbn. rewrite !app_nil_r. now destruct s.
  - cbn [scrape_cards]. unfold bind at 1. unfold try_catch at 1. unfold bind at 1.
    rewrite extract_single_hotel_run.
    cbn [listings card_warnings flat_map]. unfold listing.
    destruct (extract_fields card) as [h|e].
    + destruct (truthy (hotel_name h)); cbn; rewrite IH; cbn;
        rewrite ?app_nil_r, <- ?app_assoc; reflexivity.
    + cbn. rewrite IH. cbn. rewrite <- ?app_assoc. reflexivity.
Qed.

End CardLevel.

Section TraceFacts.
Import Py Selenium HotelScraper Trace.

Lemma extracted_app (a b : list Call) : extracted (a ++ b) = extracted a ++ extracted b.
Proof. unfold extracted. apply flat_map_app. Qed.

Lemma fetches_app (a b : list Call) : fetches (a ++ b) = fetches a + fetches b.
Proof. unfold fetches. now rewrite filter_app, length_app. Qed.

Lemma next_page_attempts_app (a b : list Call) :
  next_page_attempts (a ++ b) = next_page_attempts a + next_page_attempts b.
Proof. unfold next_page_attempts. now rewrite filter_app, length_app. Qed.

Definition reset_at_fetch (acc : list Call) (c : Call) : list Call :=
  if is_fetch c then [] else acc ++ [c].

Lemma fold_no_fetch (b acc : list Call) :
  fetches b = 0 -> fold_left reset_at_fetch b acc = acc ++ b.
Proof.
  revert acc. induction b as [|c b IH]; intros acc H.
  - cbn. now rewrite app_nil_r.
  - unfold fetches in H. cbn [filter] in H. cbn [fold_left]. unfold reset_at_fetch at 2.
    destruct (is_fetch c); [discriminate|].
    rewrite IH by exact H. now rewrite <- app_assoc.
Qed.

Lemma fold_with_fetch (b acc acc' : list Call) :
  0 < fetches b -> fold_left reset_at_fetch b acc = fold_left reset_at_fetch b acc'.
Proof.
  revert acc acc'. induction b as [|c b IH]; intros acc acc' H.
  - inversion H.
  - unfold fetches in H. cbn [filter] in H. cbn [fold_left]. unfold reset_at_fetch at 2 4.
    destruct (is_fetch c); [reflexivity|]. apply IH. exact H.
Qed.

Lemma since_last_fetch_no_fetch (b : list Call) :
  fetches b = 0 -> since_last_fetch b = b.
Proof. intro H. unfold since_last_fetch. fold reset_at_fetch. now rewrite fold_no_fetch. Qed.

Lemma since_last_fetch_app_fetch (a b : list Call) :
  0 < fetches b -> since_last_fetch (a ++ b) = since_last_fetch b.
Proof.
  intro H. unfold since_last_fetch. fold reset_at_fetch.
  rewrite fold_left_app. now apply fold_with_fetch.
Qed.

Lemma since_last_fetch_app_no_fetch (a b : list Call) :
  fetches b = 0 -> since_last_fetch (a ++ b) = since_last_fetch a ++ b.
Proof.
  intro H. unfold since_last_fetch. fold reset_at_fetch.
  rewrite fold_left_app. now apply fold_no_fetch.
Qed.

Lemma since_last_fetch_cons_fetch (sel : string) (rest : list Call) :
  fetches rest = 0 -> since_last_fetch (CallWaitPresence sel :: rest) = rest.
Proof.
  intro H. unfold since_last_fetch. fold reset_at_fetch. cbn [fold_left].
  unfold reset_at_fetch at 2. cbn [is_fetch]. now rewrite fold_no_fetch.
Qed.

(** Calls of [_go_to_next_page] are no fetches. *)
Lemma next_page_calls_no_fetch (tr : list Call) :
  forallb is_next_page_call tr = true -> fetches tr = 0.
Proof.
  induction tr as [|c tr IH]; [reflexivity|]. cbn [forallb]. intro H.
  apply andb_true_iff in H. destruct H as [Hc Htr].
  unfold fetches in *. cbn [filter].
  destruct c; cbn in Hc; try discriminate; cbn [is_fetch]; auto.
Qed.

Lemma next_page_calls_extract_nothing (tr : list Call) :
  forallb is_next_page_call tr = true -> extracted tr = [].
Proof.
  induction tr as [|c tr IH]; [reflexivity|]. cbn [forallb]. intro H.
  apply andb_true_iff in H. destruct H as [Hc Htr].
  unfold extracted in *. cbn [flat_map]. rewrite (IH Htr).
  destruct c; cbn in Hc; try discriminate; reflexivity.
Qed.

(** A call of [accept_cookies]. *)
Definition is_cookie_call (c : Call) : bool :=
  match c with
  | CallWaitClickable sel => negb (is_next_selector sel)
  | CallClick _ => true
  | _ => false
  end.

Lemma cookie_calls_facts (tr : list Call) :
  forallb is_cookie_call tr = true ->
  fetches tr = 0 /\ next_page_attempts tr = 0 /\ extracted tr = [] /\
  existsb is_next_page_call tr = false.
Proof.
  induction tr as [|c tr IH]; [easy|]. cbn [forallb]. intro H.
  apply andb_true_iff in H. destruct H as [Hc Htr].
  destruct (IH Htr) as (F & A & E & X).
  unfold fetches, next_page_attempts, extracted in *.
  cbn [filter flat_map existsb]. rewrite X, E.
  destruct c as [| |sel| | |]; unfold is_cookie_call in Hc; try discriminate;
    cbn [is_fetch is_next_page_attempt is_next_page_call]; auto.
  apply negb_true_iff in Hc. rewrite Hc.
  destruct (String.eqb sel first_next_selector) eqn:Eq; auto.
  apply String.eqb_eq in Eq. subst sel. vm_compute in Hc. discriminate.
Qed.

End TraceFacts.

(* ================================================================== *)
(** * Properties of a run *)
(* ================================================================== *)

Section Methods.
Import Py Selenium HotelScraper Trace.
Variable W : Type.
Variable drv : Driver W.

(** The state reached from [s] when the world has become [w], the
    records [ds] were appended, [lg] was logged and the driver calls [tr]
    were issued. *)
Definition after (s : State W) (w : W) (ds : list Hotel) (lg : list LogRecord)
    (tr : list Call) : State W :=
  {| browser := w; data := data s ++ ds; log := log s ++ lg; calls := calls s ++ tr |}.

Lemma after_nothing (s : State W) : after s (browser s) [] [] [] = s.
Proof. destruct s. unfold after. cbn. now rewrite !app_nil_r. Qed.

Lemma after_after (s : State W) w1 ds1 lg1 tr1 w2 ds2 lg2 tr2 :
  after (after s w1 ds1 lg1 tr1) w2 ds2 lg2 tr2
  = after s w2 (ds1 ++ ds2) (lg1 ++ lg2) (tr1 ++ tr2).
Proof. unfold after. cbn. now rewrite !app_assoc. Qed.

(** [runs m Q]: from every state, [m] only appends to the data, the log
    and the call history, and its outcome, the records it appended and
    the calls it issued satisfy [Q]. *)
Definition runs {A} (m : M W A) (Q : result A -> list Hotel -> list Call -> Prop) : Prop :=
  forall s, exists r w ds lg tr, m s = (r, after s w ds lg tr) /\ Q r ds tr.

Lemma runs_weaken {A} (m : M W A) (Q Q' : result A -> list Hotel -> list Call -> Prop) :
  runs m Q -> (forall r ds tr, Q r ds tr -> Q' r ds tr) -> runs m Q'.
Proof.
  intros H HQ s. destruct (H s) as (r & w & ds & lg & tr & E & q).
  exists r, w, ds, lg, tr. auto.
Qed.

Lemma runs_ret {A} (a : A) (Q : result A -> list Hotel -> list Call -> Prop) :
  Q (Ok a) [] [] -> runs (ret a) Q.
Proof.
  intros q s. exists (Ok a), (browser s), [], [], [].
  unfold ret. now rewrite after_nothing.
Qed.

Lemma runs_bind {A B} (m : M W A) (k : A -> M W B)
    (Q1 : result A -> list Hotel -> list Call -> Prop)
    (Q : result B -> list Hotel -> list Call -> Prop) :
  runs m Q1 ->
  (forall a ds1 tr1, Q1 (Ok a) ds1 tr1 ->
     runs (k a) (fun r ds2 tr2 => Q r (ds1 ++ ds2) (tr1 ++ tr2))) ->
  (forall e ds tr, Q1 (Raise e) ds tr -> Q (Raise e) ds tr) ->
  runs (bind m k) Q.
Proof.
  intros Hm Hk He s. unfold bind.
  destruct (Hm s) as (r & w & ds & lg & tr & E & q). rewrite E.
  destruct r as [a|e].
  - destruct (Hk a ds tr q (after s w ds lg tr)) as (r2 & w2 & ds2 & lg2 & tr2 & E2 & q2).
    rewrite E2, after_after. do 5 eexists. split; [reflexivity|exact q2].
  - do 5 eexists. split; [reflexivity|]. now apply He.
Qed.

Lemma runs_try_catch {A} (body : M W A) (caught : exn -> bool) (handler : exn -> M W A)
    (Q1 Q : result A -> list Hotel -> list Call -> Prop) :
  runs body Q1 ->
  (forall a ds tr, Q1 (Ok a) ds tr -> Q (Ok a) ds tr) ->
  (forall e ds1 tr1, Q1 (Raise e) ds1 tr1 ->
     if caught e
     then runs (handler e) (fun r ds2 tr2 => Q r (ds1 ++ ds2) (tr1 ++ tr2))
     else Q (Raise e) ds1 tr1) ->
  runs (try_catch body caught handler) Q.
Proof.
  intros Hb Hok Hex s. unfold try_catch.
  destruct (Hb s) as (r & w & ds & lg & tr & E & q). rewrite E.
  destruct r as [a|e].
  - do 5 eexists. split; [reflexivity|]. now apply Hok.
  - specialize (Hex e ds tr q). destruct (caught e).
    + destruct (Hex (after s w ds lg tr)) as (r2 & w2 & ds2 & lg2 & tr2 & E2 & q2).
      rewrite E2, after_after. do 5 eexists. split; [reflexivity|exact q2].
    + do 5 eexists. split; [reflexivity|exact Hex].
Qed.

Lemma runs_logger (l : level) (m : message)
    (Q : result unit -> list Hotel -> list Call -> Prop) :
  Q (Ok tt) [] [] -> runs (logger l m) Q.
Proof.
  intros q s. exists (Ok tt), (browser s), [], [(l, m)], [].
  split; [|exact q]. unfold logger, after. now rewrite !app_nil_r.
Qed.

Lemma runs_logger_then {B} (l : level) (m : message) (k : M W B)
    (Q : result B -> list Hotel -> list Call -> Prop) :
  runs k Q -> runs (bind (logger l m) (fun _ => k)) Q.
Proof.
  intro Hk.
  eapply runs_bind with (Q1 := fun r ds tr => r = Ok tt /\ ds = [] /\ tr = []).
  - apply runs_logger. auto.
  - intros _ ds1 tr1 (_ & -> & ->). exact Hk.
  - intros e ds tr (E & _). discriminate.
Qed.

Lemma runs_driver_call {A} (op : W -> result A * W) (ev : result A -> Call)
    (Q : result A -> list Hotel -> list Call -> Prop) :
  (forall r, Q r [] [ev r]) -> runs (driver_call op ev) Q.
Proof.
  intros q s. unfold driver_call. destruct (op (browser s)) as [r w].
  exists r, w, [], [], [ev r]. split; [|apply q].
  unfold after. now rewrite !app_nil_r.
Qed.

(** The log of a page extraction. *)
Definition page_log (found : result (list Card)) : list LogRecord :=
  match found with
  | Ok cards => (INFO, MsgFoundCards (List.length cards)) :: card_warnings cards
  | Raise e => [(ERROR, MsgErrorScrapingPage e)]
  end.

(** [_scrape_current_page] enumerates the cards once, appends their
    listings and returns how many it appended; it raises nothing. *)
Lemma scrape_current_page_run (s : State W) :
  let found := fst (find_elements drv card_selector (browser s)) in
  let w := snd (find_elements drv card_selector (browser s)) in
  _scrape_current_page drv s =
  (Ok (Z.of_nat (List.length (page_listings found))),
   after s w (page_listings found) (page_log found) [CallFindElements card_selector found]).
Proof.
  cbn zeta. unfold _scrape_current_page.
  unfold bind at 1. unfold len_data at 1. unfold try_catch.
  unfold bind at 1. unfold driver_find_elements, driver_call.
  destruct (find_elements drv card_selector (browser s)) as [[cards|e] w]; cbn [fst snd].
  - unfold bind at 1. unfold logger at 1. unfold bind at 1.
    rewrite scrape_cards_run. unfold bind, len_data, ret, after.
    cbn [browser data log calls page_listings page_log].
    rewrite length_app. f_equal; [f_equal; lia|].
    f_equal. now rewrite <- app_assoc.
  - cbn [is_Exception]. unfold bind, logger, ret, after.
    cbn [browser data log calls page_listings page_log]. now rewrite app_nil_r.
Qed.

Lemma runs_scrape_current_page :
  runs (_scrape_current_page drv)
       (fun r ds tr => exists found,
            r = Ok (Z.of_nat (List.length (page_listings found))) /\
            ds = page_listings found /\
            tr = [CallFindElements card_selector found]).
Proof.
  intro s. pose proof (scrape_current_page_run s) as E. cbn zeta in E.
  do 5 eexists. split; [exact E|]. eauto.
Qed.

(** The selector loop of [_go_to_next_page]: it appends no record, every
    call it makes is a next-page call, and it waits for each selector at
    most once. *)
Lemma runs_next_page_loop (selectors : list string) :
  forallb is_next_selector selectors = true ->
  runs (next_page_loop drv selectors)
       (fun _ ds tr =>
          ds = [] /\ forallb is_next_page_call tr = true /\
          next_page_attempts tr <=
          List.length (filter (fun sel => String.eqb sel first_next_selector) selectors)).
Proof.
  induction selectors as [|sel rest IH]; intros Hsel.
  - cbn [next_page_loop]. apply runs_logger_then. apply runs_ret. cbn. auto.
  - cbn [forallb] in Hsel. apply andb_true_iff in Hsel. destruct Hsel as [Hs Hrest].
    specialize (IH Hrest). cbn [next_page_loop filter].
    set (n := List.length (filter (fun x => String.eqb x first_next_selector) rest)) in *.
    set (one := CallWaitClickable sel).
    assert (A1 : next_page_attempts [one] + n <=
                 List.length (if String.eqb sel first_next_selector
                              then sel :: filter (fun x => String.eqb x first_next_selector) rest
                              else filter (fun x => String.eqb x first_next_selector) rest)).
    { unfold next_page_attempts. cbn [filter one is_next_page_attempt].
      destruct (String.eqb sel first_next_selector); cbn [List.length]; subst n; lia. }
    assert (N1 : is_next_page_call one = true) by exact Hs.
    eapply runs_bind with
      (Q1 := fun r ds tr => ds = [] /\ exists more,
                 tr = one :: more /\ forallb is_next_page_call more = true /\
                 next_page_attempts more = 0).
    + eapply runs_try_catch with
        (Q1 := fun r ds tr => ds = [] /\ exists more,
                 tr = one :: more /\ forallb is_next_page_call more = true /\
                 next_page_attempts more = 0).
      * eapply runs_bind with (Q1 := fun r ds tr => ds = [] /\ tr = [one]).
        -- apply runs_driver_call. auto.
        -- intros h ds1 tr1 [-> ->].
           eapply runs_bind with
             (Q1 := fun r ds tr => ds = [] /\ tr = [CallExecuteScriptClick h]).
           ++ apply runs_driver_call. auto.
           ++ intros [] ds2 tr2 [-> ->].
              apply runs_logger_then. apply runs_ret. cbn. split; [reflexivity|].
              exists [CallExecuteScriptClick h]. auto.
           ++ intros e ds tr [-> ->]. cbn. split; [reflexivity|].
              exists [CallExecuteScriptClick h]. auto.
        -- intros e ds tr [-> ->]. split; [reflexivity|]. exists []. auto.
      * auto.
      * intros e ds1 tr1 [-> (more & -> & Nm & Am)].
        destruct (is_TimeoutException e).
        -- apply runs_ret. cbn [app]. rewrite app_nil_r. split; [reflexivity|].
           exists more. auto.
        -- split; [reflexivity|]. exists more. auto.
    + intros returned ds1 tr1 [-> (more & -> & Nm & Am)].
      destruct returned.
      * apply runs_ret. rewrite !app_nil_r. split; [reflexivity|].
        split; [cbn [forallb]; now rewrite N1, Nm|].
        change (one :: more) with ([one] ++ more).
        rewrite next_page_attempts_app, Am. lia.
      * eapply runs_weaken; [exact IH|].
        intros r ds tr (-> & Nt & At). split; [reflexivity|].
        split; [cbn [app forallb]; rewrite N1, forallb_app, Nm, Nt; reflexivity|].
        change ((one :: more) ++ tr) with ([one] ++ more ++ tr).
        rewrite !next_page_attempts_app, Am. fold n in At. lia.
    + intros e ds tr [-> (more & -> & Nm & Am)]. split; [reflexivity|].
      split; [cbn [forallb]; now rewrite N1, Nm|].
      change (one :: more) with ([one] ++ more).
      rewrite next_page_attempts_app, Am. lia.
Qed.

(** [_go_to_next_page] raises nothing, appends no record, makes only
    next-page calls, and waits for the first selector exactly once. *)
Lemma runs_go_to_next_page :
  runs (_go_to_next_page drv)
       (fun r ds tr =>
          (exists b, r = Ok b) /\ ds = [] /\
          forallb is_next_page_call tr = true /\ next_page_attempts tr <= 1).
Proof.
  unfold _go_to_next_page.
  eapply runs_try_catch; [apply (@runs_next_page_loop next_selectors); reflexivity| |].
  - intros b ds tr (-> & N & A). eauto.
  - intros e ds tr (-> & N & A). cbn [is_Exception].
    apply runs_logger_then. apply runs_ret. rewrite !app_nil_r. eauto.
Qed.

(** [accept_cookies]: the same loop with a plain click; it raises
    nothing and makes only cookie calls. *)
Lemma runs_accept_cookies_loop (selectors : list string) :
  forallb (fun sel => negb (is_next_selector sel)) selectors = true ->
  runs (accept_cookies_loop drv selectors)
       (fun _ ds tr => ds = [] /\ forallb is_cookie_call tr = true).
Proof.
  induction selectors as [|sel rest IH]; intros Hsel.
  - cbn [accept_cookies_loop]. apply runs_logger_then. apply runs_ret. cbn. auto.
  - cbn [forallb] in Hsel. apply andb_true_iff in Hsel. destruct Hsel as [Hs Hrest].
    specialize (IH Hrest). cbn [accept_cookies_loop].
    assert (N1 : is_cookie_call (CallWaitClickable sel) = true) by exact Hs.
    eapply runs_bind with
      (Q1 := fun r ds tr => ds = [] /\ forallb is_cookie_call tr = true).
    + eapply runs_try_catch with
        (Q1 := fun r ds tr => ds = [] /\ forallb is_cookie_call tr = true).
      * eapply runs_bind with
          (Q1 := fun r ds tr => ds = [] /\ tr = [CallWaitClickable sel]).
        -- apply runs_driver_call. auto.
        -- intros h ds1 tr1 [-> ->].
           eapply runs_bind with (Q1 := fun r ds tr => ds = [] /\ tr = [CallClick h]).
           ++ apply runs_driver_call. auto.
           ++ intros [] ds2 tr2 [-> ->].
              apply runs_logger_then. apply runs_ret.
              split; [reflexivity|]. cbn [app forallb]. rewrite N1. reflexivity.
           ++ intros e ds tr [-> ->].
              split; [reflexivity|]. cbn [app forallb]. rewrite N1. reflexivity.
        -- intros e ds tr [-> ->].
           split; [reflexivity|]. cbn [app forallb]. rewrite N1. reflexivity.
      * auto.
      * intros e ds1 tr1 [-> N]. destruct (is_TimeoutException e).
        -- apply runs_ret. now rewrite !app_nil_r.
        -- auto.
    + intros returned ds1 tr1 [-> N]. destruct returned.
      * apply runs_ret. now rewrite !app_nil_r.
      * eapply runs_weaken; [exact IH|].
        intros r ds tr (-> & Nt). now rewrite forallb_app, N, Nt.
    + auto.
Qed.

Lemma runs_accept_cookies :
  runs (accept_cookies drv)
       (fun r ds tr => (exists b, r = Ok b) /\ ds = [] /\ forallb is_cookie_call tr = true).
Proof.
  unfold accept_cookies.
  eapply runs_try_catch; [apply (@runs_accept_cookies_loop cookie_selectors); reflexivity| |].
  - intros b ds tr (-> & N). eauto.
  - intros e ds tr (-> & N). cbn [is_Exception].
    apply runs_logger_then. apply runs_ret. rewrite !app_nil_r. eauto.
Qed.

End Methods.

Section Traversal.
Import Py Selenium HotelScraper Trace.
Variable W : Type.
Variable drv : Driver W.

(** The guard of the next-page step. *)
Definition may_advance (max_pages page : Z) : bool := (page <? max_pages - 1)%Z.

(** One iteration of the page loop: one fetch; then nothing more, or the
    enumeration of the page followed, if the guard allows, by one
    invocation of [_go_to_next_page]. *)
Lemma runs_scrape_page (max_pages page : Z) :
  runs (scrape_page drv max_pages page)
       (fun _ ds tr => exists rest,
            tr = CallWaitPresence card_selector :: rest /\
            ds = extracted rest /\
            fetches rest = 0 /\
            next_page_attempts rest <= (if may_advance max_pages page then 1 else 0) /\
            (may_advance max_pages page = false ->
             existsb is_next_page_call rest = false)).
Proof.
  unfold scrape_page. apply runs_logger_then.
  eapply runs_bind with
    (Q1 := fun _ ds tr => ds = [] /\ tr = [CallWaitPresence card_selector]).
  - eapply runs_try_catch with
      (Q1 := fun _ ds tr => ds = [] /\ tr = [CallWaitPresence card_selector]).
    + eapply runs_bind with
        (Q1 := fun _ ds tr => ds = [] /\ tr = [CallWaitPresence card_selector]).
      * apply runs_driver_call. auto.
      * intros _ ds1 tr1 [-> ->]. apply runs_ret. auto.
      * auto.
    + auto.
    + intros e ds1 tr1 [-> ->]. destruct (is_TimeoutException e); [|auto].
      apply runs_logger_then. apply runs_ret. auto.
  - intros loaded ds1 tr1 [-> ->]. destruct loaded; cbn [negb].
    + eapply runs_bind; [apply runs_scrape_current_page| |].
      * intros page_hotels ds2 tr2 (found & _ & -> & ->).
        apply runs_logger_then. fold (may_advance max_pages page).
        assert (Base : extracted [CallFindElements card_selector found] = page_listings found)
          by (cbn; apply app_nil_r).
        destruct (may_advance max_pages page).
        -- eapply runs_bind; [apply runs_go_to_next_page| |].
           ++ intros advanced ds3 tr3 (_ & -> & N & A).
              assert (Q : exists rest,
                         [CallWaitPresence card_selector] ++
                           [CallFindElements card_selector found] ++ tr3 ++ []
                         = CallWaitPresence card_selector :: rest /\
                         [] ++ page_listings found ++ [] ++ [] = extracted rest /\
                         fetches rest = 0 /\ next_page_attempts rest <= 1 /\
                         (true = false -> existsb is_next_page_call rest = false)).
              { exists (CallFindElements card_selector found :: tr3).
                rewrite !app_nil_r. split; [reflexivity|].
                change (CallFindElements card_selector found :: tr3)
                  with ([CallFindElements card_selector found] ++ tr3).
                rewrite extracted_app, fetches_app, next_page_attempts_app, Base.
                rewrite (next_page_calls_extract_nothing _ N), (next_page_calls_no_fetch _ N).
                rewrite app_nil_r. cbn. repeat split; auto; discriminate. }
              destruct advanced; cbn [negb].
              ** apply runs_ret. exact Q.
              ** apply runs_logger_then. apply runs_ret. exact Q.
           ++ intros e ds tr ((b & Hb) & _). discriminate.
        -- apply runs_ret. exists [CallFindElements card_selector found].
           rewrite !app_nil_r, Base. cbn. repeat split; auto.
      * intros e ds tr (found & Hr & _). discriminate.
    + apply runs_ret. exists []. cbn. repeat split; auto. lia.
  - intros e ds tr [-> ->]. exists []. cbn. repeat split; auto. lia.
Qed.

Lemma last_cons_nonempty {A} (x : A) (l : list A) (d : A) :
  l <> [] -> last (x :: l) d = last l d.
Proof. destruct l; [contradiction|reflexivity]. Qed.

(** The page loop: at most one fetch per page index; at most one
    invocation of [_go_to_next_page] per index that passes the guard; and
    when every index was fetched and the last one does not pass the guard,
    no next-page call follows the last fetch. *)
Lemma runs_for_pages (max_pages : Z) (pages : list Z) :
  runs (for_pages drv max_pages pages)
       (fun _ ds tr =>
          ds = extracted tr /\
          fetches tr <= List.length pages /\
          next_page_attempts tr <= List.length (filter (may_advance max_pages) pages) /\
          (fetches tr = List.length pages ->
           may_advance max_pages (last pages (max_pages - 1)%Z) = false ->
           existsb is_next_page_call (since_last_fetch tr) = false)).
Proof.
  induction pages as [|page rest IH].
  - cbn [for_pages]. apply runs_ret. cbn. auto.
  - cbn [for_pages]. eapply runs_bind; [apply runs_scrape_page| |].
    + intros c ds1 tr1 (more & -> & -> & F & A & G).
      assert (E1 : extracted (CallWaitPresence card_selector :: more) = extracted more)
        by reflexivity.
      assert (F1 : fetches (CallWaitPresence card_selector :: more) = 1)
        by (unfold fetches in *; cbn [filter is_fetch List.length]; now rewrite F).
      assert (A1 : next_page_attempts (CallWaitPresence card_selector :: more)
                   = next_page_attempts more) by reflexivity.
      assert (Stop : extracted more ++ [] = extracted ((CallWaitPresence card_selector :: more) ++ []) /\
                fetches ((CallWaitPresence card_selector :: more) ++ []) <= List.length (page :: rest) /\
                next_page_attempts ((CallWaitPresence card_selector :: more) ++ [])
                  <= List.length (filter (may_advance max_pages) (page :: rest)) /\
                (fetches ((CallWaitPresence card_selector :: more) ++ []) = List.length (page :: rest) ->
                 may_advance max_pages (last (page :: rest) (max_pages - 1)%Z) = false ->
                 existsb is_next_page_call
                   (since_last_fetch ((CallWaitPresence card_selector :: more) ++ [])) = false)).
      { rewrite !app_nil_r, E1, F1, A1. cbn [List.length filter].
        split; [reflexivity|]. split; [lia|]. split.
        - destruct (may_advance max_pages page); cbn [List.length]; lia.
        - intros L Hg. destruct rest; [|discriminate]. cbn [last] in Hg.
          rewrite since_last_fetch_cons_fetch by exact F. auto. }
      destruct c; [|apply runs_ret; exact Stop].
      eapply runs_weaken; [exact IH|].
      intros r ds2 tr2 (-> & F2 & A2 & G2).
      rewrite extracted_app, fetches_app, next_page_attempts_app, E1, F1, A1.
      cbn [List.length filter].
      split; [reflexivity|]. split; [lia|]. split.
      * destruct (may_advance max_pages page); cbn [List.length]; lia.
      * intros L Hg. destruct (Nat.eq_dec (fetches tr2) 0) as [Z0|NZ].
        -- assert (rest = []) by (destruct rest; [reflexivity|cbn in L; lia]). subst rest.
           cbn [last] in Hg.
           rewrite since_last_fetch_app_no_fetch by exact Z0.
           rewrite since_last_fetch_cons_fetch by exact F.
           rewrite existsb_app, (G Hg). cbn [orb].
           rewrite <- (since_last_fetch_no_fetch _ Z0). apply G2; [exact Z0|].
           cbn [last]. unfold may_advance. apply Z.ltb_irrefl.
        -- rewrite since_last_fetch_app_fetch by lia.
           apply G2; [lia|].
           rewrite last_cons_nonempty in Hg; [exact Hg|].
           intros ->. cbn in F2. lia.
    + intros e ds tr (more & -> & -> & F & A & G).
      assert (F1 : fetches (CallWaitPresence card_selector :: more) = 1)
        by (unfold fetches in *; cbn [filter is_fetch List.length]; now rewrite F).
      rewrite F1. cbn [List.length filter].
      split; [reflexivity|]. split; [lia|]. split.
      * change (next_page_attempts (CallWaitPresence card_selector :: more))
          with (next_page_attempts more).
        destruct (may_advance max_pages page); cbn [List.length]; lia.
      * intros L Hg. destruct rest; [|discriminate]. cbn [last] in Hg.
        rewrite since_last_fetch_cons_fetch by exact F. auto.
Qed.

Lemma range_length (n : Z) : List.length (range n) = Z.to_nat n.
Proof. unfold range. now rewrite length_map, length_seq. Qed.

Lemma range_last_blocked (n : Z) : may_advance n (last (range n) (n - 1)%Z) = false.
Proof.
  unfold may_advance, range. apply Z.ltb_ge.
  destruct (Z.to_nat n) as [|k] eqn:E; [cbn; lia|].
  rewrite seq_S, map_app. cbn [map]. rewrite last_last. lia.
Qed.

Lemma advancing_pages (b : Z) (len start : nat) :
  List.length (filter (fun p => (p <? b)%Z) (List.map Z.of_nat (List.seq start len)))
  <= Z.to_nat (b - Z.of_nat start).
Proof.
  revert start. induction len as [|len IH]; intro start; [cbn; lia|].
  cbn [List.seq List.map filter]. specialize (IH (S start)).
  destruct (Z.of_nat start <? b)%Z eqn:E; cbn [List.length].
  - apply Z.ltb_lt in E. lia.
  - lia.
Qed.

Lemma range_advancing (n : Z) :
  List.length (filter (may_advance n) (range n)) <= Z.to_nat (n - 1).
Proof.
  unfold range, may_advance.
  pose proof (advancing_pages (n - 1) (Z.to_nat n) 0) as H.
  cbn [Z.of_nat] in H. now rewrite Z.sub_0_r in H.
Qed.

End Traversal.

Section Run.
Import Py Selenium HotelScraper Trace.
Variable W : Type.
Variable drv : Driver W.

Lemma runs_len_data :
  runs (@len_data W) (fun r ds tr => (exists n, r = Ok n) /\ ds = [] /\ tr = []).
Proof.
  intro s. exists (Ok (List.length (data s))), (browser s), [], [], [].
  unfold len_data. rewrite after_nothing. eauto.
Qed.

Lemma create_dataframe_run (s : State W) :
  exists lg,
    _create_dataframe drv s =
    (Ok (List.map (to_row (now drv (browser s))) (data s)), after s (browser s) [] lg []).
Proof.
  unfold _create_dataframe. destruct (data s) as [|h rest] eqn:E.
  - exists [(WARNING, MsgNoDataCollected)].
    unfold bind, logger, ret, after. cbn. now rewrite E, !app_nil_r.
  - eexists [(INFO, MsgCreatedDataFrame _)].
    unfold bind, logger, ret, after. cbn. now rewrite E, !app_nil_r.
Qed.

Lemma runs_create_dataframe :
  runs (_create_dataframe drv) (fun r ds tr => (exists df, r = Ok df) /\ ds = [] /\ tr = []).
Proof.
  intro s. destruct (create_dataframe_run s) as [lg E].
  do 5 eexists. split; [exact E|]. eauto.
Qed.

(** What a run establishes about the records it appended and the driver
    calls it issued. *)
Definition run_summary (max_pages : Z) (ds : list Hotel) (tr : list Call) : Prop :=
  ds = extracted tr /\
  fetches tr <= Z.to_nat max_pages /\
  next_page_attempts tr <= Z.to_nat (max_pages - 1) /\
  (fetches tr = Z.to_nat max_pages ->
   existsb is_next_page_call (since_last_fetch tr) = false).

Lemma runs_scrape_hotel_data_body (url : str) (max_pages : Z) :
  runs (scrape_hotel_data_body drv url max_pages)
       (fun _ ds tr => run_summary max_pages ds tr).
Proof.
  unfold scrape_hotel_data_body. apply runs_logger_then.
  assert (Only_get : run_summary max_pages [] [CallGet url]).
  { repeat split; cbn; auto; lia. }
  eapply runs_bind with (Q1 := fun _ ds tr => ds = [] /\ tr = [CallGet url]).
  { apply runs_driver_call. auto. }
  2:{ intros e ds tr [-> ->]. exact Only_get. }
  intros _ ds0 tr0 [-> ->].
  eapply runs_bind; [apply runs_accept_cookies| |].
  2:{ intros e ds tr ((b & Hb) & _). discriminate. }
  intros _ ds1 tr1 (_ & -> & C).
  destruct (cookie_calls_facts _ C) as (Fc & Ac & Ec & Xc).
  set (pre := [CallGet url] ++ tr1).
  assert (Fp : fetches pre = 0) by (subst pre; rewrite fetches_app, Fc; reflexivity).
  assert (Ap : next_page_attempts pre = 0)
    by (subst pre; rewrite next_page_attempts_app, Ac; reflexivity).
  assert (Ep : extracted pre = []) by (subst pre; rewrite extracted_app, Ec; reflexivity).
  assert (Xp : existsb is_next_page_call pre = false)
    by (subst pre; rewrite existsb_app, Xc; reflexivity).
  assert (Loop : forall ds tr,
             ds = extracted tr /\
             fetches tr <= List.length (range max_pages) /\
             next_page_attempts tr <= List.length (filter (may_advance max_pages) (range max_pages)) /\
             (fetches tr = List.length (range max_pages) ->
              may_advance max_pages (last (range max_pages) (max_pages - 1)%Z) = false ->
              existsb is_next_page_call (since_last_fetch tr) = false) ->
             run_summary max_pages ([] ++ [] ++ ds) (pre ++ tr)).
  { intros ds tr (-> & F & A & G). pose proof (range_advancing max_pages) as RA.
    rewrite range_length in *.
    unfold run_summary.
    rewrite extracted_app, fetches_app, next_page_attempts_app, Ep, Fp, Ap. cbn [app plus].
    split; [reflexivity|]. split; [exact F|]. split; [lia|].
    intro L. specialize (G L (range_last_blocked max_pages)).
    destruct (Nat.eq_dec (fetches tr) 0) as [Z0|NZ].
    - rewrite since_last_fetch_app_no_fetch by exact Z0.
      rewrite (since_last_fetch_no_fetch _ Fp), existsb_app, Xp. cbn [orb].
      now rewrite (since_last_fetch_no_fetch _ Z0) in G.
    - rewrite since_last_fetch_app_fetch by lia. exact G. }
  eapply runs_bind; [apply runs_for_pages| |].
  2:{ intros e ds tr H. apply Loop. exact H. }
  intros u ds2 tr2 H. apply Loop in H.
  eapply runs_bind; [apply runs_len_data| |].
  2:{ intros e ds tr ((n & Hn) & _). discriminate. }
  intros total ds3 tr3 (_ & -> & ->).
  apply runs_logger_then.
  eapply runs_weaken; [apply runs_create_dataframe|].
  intros r ds tr (_ & -> & ->). cbn [app] in *. rewrite !app_nil_r. exact H.
Qed.

(** Whatever happens, [scrape_hotel_data] returns a data frame. *)
Lemma runs_scrape_hotel_data (url : str) (max_pages : Z) :
  runs (scrape_hotel_data drv url max_pages)
       (fun r ds tr => (exists df, r = Ok df) /\ run_summary max_pages ds tr).
Proof.
  unfold scrape_hotel_data.
  eapply runs_try_catch; [apply runs_scrape_hotel_data_body| |].
  - intros df ds tr H. eauto.
  - intros e ds tr H. cbn [is_Exception].
    apply runs_logger_then. apply runs_ret. rewrite !app_nil_r. eauto.
Qed.

(** A computation whose normal result is the data frame of the state it
    ends in. *)
Definition yields_dataframe (m : M W DataFrame) : Prop :=
  forall s df s', m s = (Ok df, s') ->
    df = List.map (to_row (now drv (browser s'))) (data s').

Lemma yields_bind {A} (m : M W A) (k : A -> M W DataFrame) :
  (forall a, yields_dataframe (k a)) -> yields_dataframe (bind m k).
Proof.
  intros H s df s'. unfold bind. destruct (m s) as [[a|e] s1]; [apply H|discriminate].
Qed.

Lemma yields_create_dataframe : yields_dataframe (_create_dataframe drv).
Proof.
  intros s df s' E. destruct (create_dataframe_run s) as [lg R].
  rewrite R in E. injection E as <- <-. unfold after. cbn [browser data].
  now rewrite app_nil_r.
Qed.

Lemma body_yields_dataframe (url : str) (max_pages : Z) :
  yields_dataframe (scrape_hotel_data_body drv url max_pages).
Proof.
  unfold scrape_hotel_data_body.
  repeat (apply yields_bind; intro). apply yields_create_dataframe.
Qed.

(** How the method relates to its [try] block. *)
Lemma scrape_hotel_data_unfold (url : str) (max_pages : Z) (s : State W) :
  scrape_hotel_data drv url max_pages s =
  match scrape_hotel_data_body drv url max_pages s with
  | (Ok df, s1) => (Ok df, s1)
  | (Raise e, s1) =>
      (Ok [], {| browser := browser s1; data := data s1;
                 log := log s1 ++ [(ERROR, MsgErrorDuringScraping e)];
                 calls := calls s1 |})
  end.
Proof.
  unfold scrape_hotel_data, try_catch.
  destruct (scrape_hotel_data_body drv url max_pages s) as [[df|e] s1]; reflexivity.
Qed.

End Run.

Section RunClaims.
Import Py Selenium HotelScraper Trace.

(** The state and the value a run ends with. *)
Lemma scrape_hotel_data_result (W : Type) (drv : Driver W) (url : str)
    (max_pages : Z) (s : State W) :
  exists tr,
    calls (snd (scrape_hotel_data drv url max_pages s)) = calls s ++ tr /\
    data (snd (scrape_hotel_data drv url max_pages s)) = data s ++ extracted tr /\
    (forall df s1,
        scrape_hotel_data_body drv url max_pages s = (Ok df, s1) ->
        fst (scrape_hotel_data drv url max_pages s)
        = Ok (List.map (to_row (now drv (browser s1))) (data s ++ extracted tr))).
Proof.
  destruct (runs_scrape_hotel_data drv url max_pages s)
    as (r & w & ds & lg & tr & E & (_ & -> & _)).
  exists tr. rewrite E. cbn [fst snd after calls data].
  split; [reflexivity|]. split; [reflexivity|].
  intros df s1 B. pose proof (@body_yields_dataframe _ drv url max_pages _ _ _ B) as D.
  rewrite scrape_hotel_data_unfold, B in E. injection E as <- ->.
  rewrite D. reflexivity.
Qed.

(** C1, counterexample.  On a site whose first page shows one listing
    and whose session is lost while the second page loads, the [try]
    block raises after "A" was appended, and the run returns the empty
    data frame: the listing is in [self.data] but not in the result. *)
Lemma fault_discards_results_counterexample :
  fst (scrape_hotel_data_body Site.driver Scenario.url 3 (__init__ Scenario.dying_site))
    = Raise WebDriverException /\
  Scenario.names (snd (Scenario.run Scenario.dying_site 3)) = [lit "A"] /\
  fst (Scenario.run Scenario.dying_site 3) = Ok [].
Proof. repeat split; vm_compute; reflexivity. Qed.

(** C1, as amended.  If the traversal is ended by an exception raised
    inside [scrape_hotel_data] (a navigation or session fault), the run
    returns an empty data frame; the listings appended before the fault
    are not part of the returned value, they stay in [self.data], which
    holds the records it had before the run followed by the listings of
    the pages enumerated before the fault. *)
Theorem fault_returns_empty_frame (W : Type) (drv : Driver W) (url : str) (max_pages : Z)
    (s s1 : State W) (e : exn) :
  scrape_hotel_data_body drv url max_pages s = (Raise e, s1) ->
  exists s', scrape_hotel_data drv url max_pages s = (Ok [], s') /\
             data s' = data s1 /\
             log s' = log s1 ++ [(ERROR, MsgErrorDuringScraping e)] /\
             exists tr, calls s1 = calls s ++ tr /\ data s1 = data s ++ extracted tr.
Proof.
  intro H. rewrite scrape_hotel_data_unfold, H. eexists. split; [reflexivity|].
  cbn [data log]. split; [reflexivity|]. split; [reflexivity|].
  destruct (runs_scrape_hotel_data_body drv url max_pages s)
    as (r & w & ds & lg & tr & E & (-> & _)).
  rewrite H in E. injection E as _ ->. exists tr. split; reflexivity.
Qed.

Lemma fault_returns_empty_frame_witness :
  scrape_hotel_data_body Site.driver Scenario.url 3 (__init__ Scenario.dying_site)
  = (Raise WebDriverException,
     snd (scrape_hotel_data_body Site.driver Scenario.url 3 (__init__ Scenario.dying_site))) /\
  exists s', scrape_hotel_data Site.driver Scenario.url 3 (__init__ Scenario.dying_site)
             = (Ok [], s') /\
             data s' = data (snd (scrape_hotel_data_body Site.driver Scenario.url 3
                                    (__init__ Scenario.dying_site))) /\
             log s' = log (snd (scrape_hotel_data_body Site.driver Scenario.url 3
                                    (__init__ Scenario.dying_site)))
                      ++ [(ERROR, MsgErrorDuringScraping WebDriverException)] /\
             exists tr,
               calls (snd (scrape_hotel_data_body Site.driver Scenario.url 3
                             (__init__ Scenario.dying_site)))
               = calls (__init__ Scenario.dying_site) ++ tr /\
               data (snd (scrape_hotel_data_body Site.driver Scenario.url 3
                            (__init__ Scenario.dying_site)))
               = data (__init__ Scenario.dying_site) ++ extracted tr.
Proof.
  assert (H : scrape_hotel_data_body Site.driver Scenario.url 3 (__init__ Scenario.dying_site)
              = (Raise WebDriverException,
                 snd (scrape_hotel_data_body Site.driver Scenario.url 3
                        (__init__ Scenario.dying_site))))
    by (vm_compute; reflexivity).
  split; [exact H|]. exact (@fault_returns_empty_frame _ _ _ _ _ _ _ H).
Defined.

(** C3.  For every page budget and every behaviour of the site, a run
    waits for the cards of a page (a fetch) at most [max_pages] times and
    invokes [_go_to_next_page] at most [max_pages - 1] times; when the
    budget is used up, no next-page call follows the last fetch: the
    next-page control of the final allowed page is never looked for nor
    clicked. *)
Theorem page_budget_bounds_traversal (W : Type) (drv : Driver W) (url : str)
    (max_pages : Z) (s : State W) :
  exists tr,
    calls (snd (scrape_hotel_data drv url max_pages s)) = calls s ++ tr /\
    fetches tr <= Z.to_nat max_pages /\
    next_page_attempts tr <= Z.to_nat (max_pages - 1) /\
    (fetches tr = Z.to_nat max_pages ->
     existsb is_next_page_call (since_last_fetch tr) = false).
Proof.
  destruct (runs_scrape_hotel_data drv url max_pages s)
    as (r & w & ds & lg & tr & E & (_ & _ & F & A & G)).
  exists tr. rewrite E. cbn [snd after calls]. auto.
Qed.

(** The scenario of the specification: budget 2, next-page controls on
    every page.  Four records, two fetches, one next-page click, and
    nothing but the enumeration of the cards after the second fetch. *)
Lemma budget_two_scenario :
  Scenario.names (snd (Scenario.run Scenario.three_pages 2))
    = [lit "A"; lit "B"; lit "C"; lit "D"] /\
  fetches (calls (snd (Scenario.run Scenario.three_pages 2))) = 2 /\
  next_page_attempts (calls (snd (Scenario.run Scenario.three_pages 2))) = 1 /\
  List.map is_next_page_call
    (since_last_fetch (calls (snd (Scenario.run Scenario.three_pages 2)))) = [false].
Proof. repeat split; vm_compute; reflexivity. Qed.

(** The scenario with one page of three cards and no next-page control:
    three records, one fetch. *)
Lemma single_page_scenario :
  Scenario.names (snd (Scenario.run Scenario.single_page 5))
    = [lit "A"; lit "B"; lit "C"] /\
  fetches (calls (snd (Scenario.run Scenario.single_page 5))) = 1 /\
  option_map (@List.length _)
    (match fst (Scenario.run Scenario.single_page 5) with Ok df => Some df | Raise _ => None end)
    = Some 3.
Proof. repeat split; vm_compute; reflexivity. Qed.

(** C9.  The accumulator keeps extraction order across the whole run:
    after a run [self.data] is what it held before, followed by the
    listings of every enumerated page, page after page and in document
    order within a page; so whatever page is singled out, the records of
    the pages before it come first, then its own, then those of the later
    pages, nothing dropped, merged or moved.  The returned data frame has
    one row per record in the same order. *)
Theorem accumulator_keeps_page_order (W : Type) (drv : Driver W) (url : str)
    (max_pages : Z) (s : State W) :
  exists tr,
    calls (snd (scrape_hotel_data drv url max_pages s)) = calls s ++ tr /\
    data (snd (scrape_hotel_data drv url max_pages s)) = data s ++ extracted tr /\
    (forall before sel found later,
        tr = before ++ CallFindElements sel found :: later ->
        data (snd (scrape_hotel_data drv url max_pages s))
        = data s ++ extracted before ++ page_listings found ++ extracted later) /\
    (forall df s1,
        scrape_hotel_data_body drv url max_pages s = (Ok df, s1) ->
        fst (scrape_hotel_data drv url max_pages s)
        = Ok (List.map (to_row (now drv (browser s1))) (data s ++ extracted tr))).
Proof.
  destruct (scrape_hotel_data_result drv url max_pages s) as (tr & C & D & F).
  exists tr. split; [exact C|]. split; [exact D|]. split; [|exact F].
  intros before sel found later ->. rewrite D.
  change (CallFindElements sel found :: later)
    with ([CallFindElements sel found] ++ later).
  rewrite !extracted_app. cbn [extracted flat_map]. now rewrite app_nil_r.
Qed.

(** No deduplication: a listing shown on two pages is recorded twice. *)
Lemma duplicates_are_kept :
  Scenario.names (snd (Scenario.run Scenario.repeating_site 5)) = [lit "A"; lit "A"].
Proof. vm_compute. reflexivity. Qed.

(** C10, counterexample.  A first call with budget 1 collects "A"; a
    second call on the same instance with budget 2 loses the session on
    the second page and returns the empty data frame: the record of the
    first call is in [self.data], twice by now, but not in the data set
    the second call produces. *)
Lemma second_call_fault_counterexample :
  Scenario.names (snd (Scenario.run Scenario.dying_site 1)) = [lit "A"] /\
  fst (scrape_hotel_data Site.driver Scenario.url 2 (snd (Scenario.run Scenario.dying_site 1)))
    = Ok [] /\
  Scenario.names
    (snd (scrape_hotel_data Site.driver Scenario.url 2 (snd (Scenario.run Scenario.dying_site 1))))
    = [lit "A"; lit "A"].
Proof. repeat split; vm_compute; reflexivity. Qed.

(** C10, as amended.  [scrape_hotel_data] never clears the accumulator:
    for two successive calls on one instance, the records held after the
    first call remain a prefix, in order, of [self.data] after the second
    call, and of the rows of the data frame the second call returns
    whenever its [try] block completes without raising (otherwise that
    data frame is empty); only [__init__] starts from an empty list. *)
Theorem accumulator_persists_across_calls (W : Type) (drv : Driver W)
    (url1 url2 : str) (max1 max2 : Z) (s : State W) :
  let s1 := snd (scrape_hotel_data drv url1 max1 s) in
  let second := scrape_hotel_data drv url2 max2 s1 in
  (exists added,
      data (snd second) = data s1 ++ added /\
      (forall df s2,
          scrape_hotel_data_body drv url2 max2 s1 = (Ok df, s2) ->
          fst second = Ok (List.map (to_row (now drv (browser s2))) (data s1)
                           ++ List.map (to_row (now drv (browser s2))) added)) /\
      (forall e s2,
          scrape_hotel_data_body drv url2 max2 s1 = (Raise e, s2) ->
          fst second = Ok [])) /\
  (exists collected, data s1 = data s ++ collected) /\
  (forall w : W, data (__init__ w) = []).
Proof.
  cbn zeta. set (s1 := snd (scrape_hotel_data drv url1 max1 s)).
  split; [|split; [|reflexivity]].
  - destruct (scrape_hotel_data_result drv url2 max2 s1) as (tr & _ & D & F).
    exists (extracted tr). split; [exact D|]. split.
    + intros df s2 B. rewrite (F _ _ B). now rewrite map_app.
    + intros e s2 B. rewrite scrape_hotel_data_unfold, B. reflexivity.
  - destruct (scrape_hotel_data_result drv url1 max1 s) as (tr & _ & D & _).
    exists (extracted tr). exact D.
Qed.

End RunClaims.

(* ================================================================== *)
(** * Properties of fields and cards *)
(* ================================================================== *)

Section CardClaims.
Import Py Selenium HotelScraper Trace.

(** A lookup that fails with something other than "not found". *)
Definition unexpected_fault (card : Card) (sel : string) : bool :=
  match find_element card sel with
  | Ok element =>
      match text element with
      | Ok _ => false
      | Raise e => negb (is_NoSuchElementException e)
      end
  | Raise e => negb (is_NoSuchElementException e)
  end.

Lemma safe_extract_text_cases (card : Card) (sel : string) :
  _safe_extract_text card sel =
  match find_element card sel with
  | Ok element =>
      match text element with
      | Ok t => Ok (strip t)
      | Raise e => if is_NoSuchElementException e then Ok [] else Raise e
      end
  | Raise e => if is_NoSuchElementException e then Ok [] else Raise e
  end.
Proof.
  unfold _safe_extract_text, try_except, and_then.
  destruct (find_element card sel) as [element|e]; [|reflexivity].
  destruct (text element); reflexivity.
Qed.

(** C2, counterexample.  On a card whose lookup fails with a stale
    element reference, [_safe_extract_text] raises. *)
Lemma safe_extract_text_raises_counterexample :
  _safe_extract_text Site.stale_card title_selector = Raise StaleElementReferenceException.
Proof. reflexivity. Qed.

(** C2, as amended.  Every field is resolved with a single candidate
    selector, evaluated once: [_safe_extract_text] returns the trimmed
    text of the element when the selector matches, the empty string when
    the lookup reports "not found", which is what the specification's
    ordered fallback gives on a one-candidate list; it raises exactly
    when the lookup fails with another exception, and then re-raises that
    exception. *)
Theorem safe_extract_text_spec (card : Card) (sel : string) :
  (forall element t,
      find_element card sel = Ok element -> text element = Ok t ->
      _safe_extract_text card sel = Ok (strip t)) /\
  (find_element card sel = Raise NoSuchElementException ->
   _safe_extract_text card sel = Ok []) /\
  (unexpected_fault card sel = false ->
   _safe_extract_text card sel = Ok (Spec.resolve card [sel])) /\
  (forall e,
      _safe_extract_text card sel = Raise e <->
      e <> NoSuchElementException /\
      (find_element card sel = Raise e \/
       exists element, find_element card sel = Ok element /\ text element = Raise e)).
Proof.
  rewrite safe_extract_text_cases. unfold unexpected_fault. cbn [Spec.resolve].
  split; [|split; [|split]].
  - intros element t -> ->. reflexivity.
  - intros ->. reflexivity.
  - destruct (find_element card sel) as [element|e].
    + destruct (text element) as [t|e]; [reflexivity|].
      intro H. apply negb_false_iff in H. now rewrite H.
    + intro H. apply negb_false_iff in H. now rewrite H.
  - intro e. split.
    + destruct (find_element card sel) as [element|e0].
      * destruct (text element) as [t|e1] eqn:T; [discriminate|].
        destruct (is_NoSuchElementException e1) eqn:N; [discriminate|].
        intros [= <-]. split; [|right; eauto].
        intros ->. discriminate.
      * destruct (is_NoSuchElementException e0) eqn:N; [discriminate|].
        intros [= <-]. split; [|left; reflexivity].
        intros ->. discriminate.
    + intros (N & [H | (element & H & T)]); rewrite H; [|rewrite T];
        destruct e; try reflexivity; contradiction.
Qed.

Lemma listings_cons (c : Card) (cards : list Card) :
  listings (c :: cards) = listing c ++ listings cards.
Proof. reflexivity. Qed.

Lemma listings_skip_faulty (cards : list Card) :
  listings cards = listings (filter (fun c => negb (faulty c)) cards).
Proof.
  induction cards as [|c cards IH]; [reflexivity|].
  rewrite listings_cons. cbn [filter]. unfold faulty at 1.
  destruct (extract_fields c) as [h|e] eqn:E; cbn [is_ok negb].
  - rewrite listings_cons. now rewrite IH.
  - unfold listing. rewrite E. exact IH.
Qed.

Lemma listings_count (cards : list Card) :
  List.length (listings cards) = List.length (filter named cards).
Proof.
  induction cards as [|c cards IH]; [reflexivity|].
  rewrite listings_cons, length_app, IH. cbn [filter].
  unfold listing, named. destruct (extract_fields c) as [h|e]; [|reflexivity].
  destruct (truthy (hotel_name h)); reflexivity.
Qed.

Lemma card_warnings_count (cards : list Card) :
  List.length (card_warnings cards) = List.length (filter faulty cards).
Proof.
  induction cards as [|c cards IH]; [reflexivity|].
  change (card_warnings (c :: cards))
    with (match extract_fields c with
          | Ok _ => []
          | Raise e => [(WARNING, MsgErrorExtractingSingleHotel e)]
          end ++ card_warnings cards).
  rewrite length_app. cbn [filter]. unfold faulty at 1.
  destruct (extract_fields c); cbn [is_ok negb];
    [exact IH | exact (f_equal S IH)].
Qed.

Lemma card_warnings_are_warnings (cards : list Card) :
  Forall (fun rec => fst rec = WARNING) (card_warnings cards).
Proof.
  induction cards as [|c cards IH]; [constructor|].
  change (card_warnings (c :: cards))
    with (match extract_fields c with
          | Ok _ => []
          | Raise e => [(WARNING, MsgErrorExtractingSingleHotel e)]
          end ++ card_warnings cards).
  apply Forall_app. split; [|exact IH].
  destruct (extract_fields c); repeat constructor.
Qed.

Lemma named_or_faulty_count (cards : list Card) :
  forallb (fun c => faulty c || named c) cards = true ->
  List.length (filter named cards) + List.length (filter faulty cards) = List.length cards.
Proof.
  induction cards as [|c cards IH]; [reflexivity|]. cbn [forallb filter].
  intro H. apply andb_true_iff in H. destruct H as [Hc H]. specialize (IH H).
  unfold faulty, named in *.
  destruct (extract_fields c) as [h|e]; cbn [is_ok negb orb] in *.
  - rewrite Hc. cbn [List.length]. lia.
  - cbn [List.length]. lia.
Qed.

(** Without unexpected faults every field resolves, and the record is
    built. *)
Lemma safe_extract_text_ok (card : Card) (sel : string) :
  unexpected_fault card sel = false -> exists t, _safe_extract_text card sel = Ok t.
Proof.
  unfold unexpected_fault, _safe_extract_text, try_except, and_then.
  destruct (find_element card sel) as [element|e].
  - destruct (text element) as [t|e]; [eauto|].
    intro H. apply negb_false_iff in H. rewrite H. eauto.
  - intro H. apply negb_false_iff in H. rewrite H. eauto.
Qed.

Lemma safe_extract_text_unresolved (card : Card) (sel : string) :
  find_element card sel = Raise NoSuchElementException ->
  _safe_extract_text card sel = Ok [].
Proof. unfold _safe_extract_text. now intros ->. Qed.

Lemma clean_price_ok (t : str) : exists v, _clean_price t = Ok v.
Proof. rewrite clean_price_eq. eauto. Qed.

Lemma clean_rating_ok (t : str) : exists v, _clean_rating t = Ok v.
Proof. rewrite clean_rating_eq. eauto. Qed.

(** The record built from a card: each field is its resolved text, price
    and rating normalized. *)
Lemma extract_fields_ok (card : Card) (h : Hotel) :
  extract_fields card = Ok h <->
  exists price_text rating_text,
    _safe_extract_text card title_selector = Ok (hotel_name h) /\
    _safe_extract_text card price_selector = Ok price_text /\
    _clean_price price_text = Ok (price h) /\
    _safe_extract_text card rating_selector = Ok rating_text /\
    _clean_rating rating_text = Ok (rating h) /\
    _safe_extract_text card location_selector = Ok (location h) /\
    _safe_extract_text card review_count_selector = Ok (review_count h) /\
    _safe_extract_text card distance_selector = Ok (distance h).
Proof.
  unfold extract_fields, and_then. split.
  - destruct (_safe_extract_text card title_selector) as [name|]; [|discriminate].
    destruct (_safe_extract_text card price_selector) as [pt|]; [|discriminate].
    destruct (_clean_price pt) as [p|] eqn:P; [|discriminate].
    destruct (_safe_extract_text card rating_selector) as [rt|]; [|discriminate].
    destruct (_clean_rating rt) as [r|] eqn:R; [|discriminate].
    destruct (_safe_extract_text card location_selector) as [l|]; [|discriminate].
    destruct (_safe_extract_text card review_count_selector) as [rc|]; [|discriminate].
    destruct (_safe_extract_text card distance_selector) as [d|]; [|discriminate].
    intros [= <-]. exists pt, rt. cbn. auto 10.
  - intros (pt & rt & -> & -> & -> & -> & -> & -> & -> & ->). now destruct h.
Qed.

End CardClaims.

Section PageClaims.
Import Py Selenium HotelScraper Trace.

Lemma truthy_nonempty (t : str) : truthy t = true <-> t <> [].
Proof. destruct t; cbn; split; congruence. Qed.

Lemma in_listing (card : Card) (h : Hotel) :
  In h (listing card) <-> extract_fields card = Ok h /\ hotel_name h <> [].
Proof.
  unfold listing. destruct (extract_fields card) as [h0|e].
  - destruct (truthy (hotel_name h0)) eqn:T.
    + apply truthy_nonempty in T. cbn. split.
      * intros [<- | []]. auto.
      * intros [[= <-] _]. auto.
    + split; [intros []|]. intros [[= <-] N]. apply truthy_nonempty in N. congruence.
  - split; [intros []|]. intros [H _]. discriminate.
Qed.

(** The selectors of the fields other than the name. *)
Definition other_field_selectors : list string :=
  [price_selector; rating_selector; location_selector; review_count_selector;
   distance_selector].

(** C4.  A card's record is appended to [self.data] if and only if its
    extraction yields a record whose name, the trimmed text resolved for
    the title, is non-empty: the card loop appends exactly the listings of
    the cards, a card whose resolved name is empty contributes nothing,
    and a card with a non-empty name whose other fields resolve or are
    simply not found is retained, every field that is not found being the
    empty string, or 0.0 for price and rating. *)
Theorem named_cards_are_retained (W : Type) (cards : list Card) (i : nat) (s : State W) :
  data (snd (scrape_cards i cards s)) = data s ++ listings cards /\
  (forall h,
      In h (listings cards) <->
      exists card, In card cards /\ extract_fields card = Ok h /\ hotel_name h <> []) /\
  (forall card h, extract_fields card = Ok h ->
      _safe_extract_text card title_selector = Ok (hotel_name h)) /\
  (forall card, _safe_extract_text card title_selector = Ok [] -> listing card = []) /\
  (forall card name,
      _safe_extract_text card title_selector = Ok name -> name <> [] ->
      forallb (fun sel => negb (unexpected_fault card sel)) other_field_selectors = true ->
      exists h,
        listing card = [h] /\ hotel_name h = name /\
        (find_element card price_selector = Raise NoSuchElementException ->
         price h = zero) /\
        (find_element card rating_selector = Raise NoSuchElementException ->
         rating h = zero) /\
        (find_element card location_selector = Raise NoSuchElementException ->
         location h = []) /\
        (find_element card review_count_selector = Raise NoSuchElementException ->
         review_count h = []) /\
        (find_element card distance_selector = Raise NoSuchElementException ->
         distance h = [])).
Proof.
  split; [rewrite scrape_cards_run; reflexivity|].
  split; [|split; [|split]].
  - intro h. unfold listings. rewrite in_flat_map.
    split; intros (card & Hin & H); exists card; (split; [exact Hin|]);
      now apply in_listing.
  - intros card h H. apply extract_fields_ok in H.
    destruct H as (pt & rt & H & _). exact H.
  - intros card H. unfold listing.
    destruct (extract_fields card) as [h|e] eqn:E; [|reflexivity].
    apply extract_fields_ok in E. destruct E as (pt & rt & N & _).
    rewrite H in N. injection N as <-. reflexivity.
  - intros card name Hname Hne Hothers.
    cbn [forallb other_field_selectors] in Hothers.
    repeat (apply andb_true_iff in Hothers; destruct Hothers as [?F Hothers]).
    repeat match goal with
           | H : negb _ = true |- _ => apply negb_true_iff in H
           end.
    destruct (safe_extract_text_ok _ _ F) as [pt Hp].
    destruct (safe_extract_text_ok _ _ F0) as [rt Hr].
    destruct (safe_extract_text_ok _ _ F1) as [l Hl].
    destruct (safe_extract_text_ok _ _ F2) as [rc Hrc].
    destruct (safe_extract_text_ok _ _ F3) as [d Hd].
    destruct (clean_price_ok pt) as [p Hcp].
    destruct (clean_rating_ok rt) as [r Hcr].
    set (h := {| hotel_name := name; price := p; rating := r; location := l;
                 review_count := rc; distance := d |}).
    assert (E : extract_fields card = Ok h).
    { apply extract_fields_ok. exists pt, rt. cbn. auto 10. }
    exists h. split.
    { unfold listing. rewrite E. cbn [hotel_name h].
      apply truthy_nonempty in Hne. now rewrite Hne. }
    split; [reflexivity|]. cbn [price rating location review_count distance h].
    repeat split; intro U; apply safe_extract_text_unresolved in U.
    + rewrite U in Hp. injection Hp as <-.
      change (_clean_price []) with (@Ok pyfloat zero) in Hcp. congruence.
    + rewrite U in Hr. injection Hr as <-.
      change (_clean_rating []) with (@Ok pyfloat zero) in Hcr. congruence.
    + congruence.
    + congruence.
    + congruence.
Qed.

(** A title made of blanks is empty after trimming: the card is dropped. *)
Lemma blank_title_is_rejected :
  listing (Site.titled "   ") = [] /\
  List.map hotel_name (listing (Site.titled " Grand Hotel ")) = [lit "Grand Hotel"] /\
  List.map rating (listing (Site.titled " Grand Hotel ")) = [zero] /\
  List.map price (listing (Site.titled " Grand Hotel ")) = [zero].
Proof. repeat split; vm_compute; reflexivity. Qed.

(** C5.  The page-level extraction never raises.  When the cards of the
    page are enumerated, every card whose extraction raises is skipped
    with one warning logged, the other cards are extracted as if the
    faulty ones were not there, the returned count is the number of cards
    that yield a named record, and, when every card that does not raise
    yields one, it equals the number of cards minus the faulty ones. *)
Theorem faulty_cards_are_skipped (W : Type) (drv : Driver W) (s : State W) :
  exists n,
    fst (_scrape_current_page drv s) = Ok n /\
    forall cards,
      fst (find_elements drv card_selector (browser s)) = Ok cards ->
      data (snd (_scrape_current_page drv s))
        = data s ++ listings (filter (fun c => negb (faulty c)) cards) /\
      log (snd (_scrape_current_page drv s))
        = log s ++ (INFO, MsgFoundCards (List.length cards)) :: card_warnings cards /\
      Forall (fun rec => fst rec = WARNING) (card_warnings cards) /\
      List.length (card_warnings cards) = List.length (filter faulty cards) /\
      n = Z.of_nat (List.length (filter named cards)) /\
      (forallb (fun c => faulty c || named c) cards = true ->
       n = (Z.of_nat (List.length cards) - Z.of_nat (List.length (filter faulty cards)))%Z).
Proof.
  pose proof (scrape_current_page_run drv s) as R. cbn zeta in R.
  eexists. rewrite R. cbn [fst snd]. split; [reflexivity|].
  intros cards ->. cbn [page_listings page_log after data log].
  split; [now rewrite <- listings_skip_faulty|].
  split; [reflexivity|].
  split; [apply card_warnings_are_warnings|].
  split; [apply card_warnings_count|].
  split; [now rewrite listings_count|].
  intro H. apply named_or_faulty_count in H. rewrite listings_count. lia.
Qed.

(** The scenario of the specification: three cards, the second raises. *)
Lemma one_faulty_card_scenario :
  let s := __init__ (Site.site [Site.page_of [Site.titled "A"; Site.stale_card; Site.titled "B"] false]) in
  fst (_scrape_current_page Site.driver s) = Ok 2%Z /\
  List.map hotel_name (data (snd (_scrape_current_page Site.driver s))) = [lit "A"; lit "B"] /\
  List.length (filter (fun rec => match fst rec with WARNING => true | _ => false end)
                 (log (snd (_scrape_current_page Site.driver s)))) = 1.
Proof. repeat split; vm_compute; reflexivity. Qed.

End PageClaims.

(* ================================================================== *)
(** * Further properties of the normalizer *)
(* ================================================================== *)

Section NormalizerEdgeCases.
Import Py HotelScraper.
#[local] Set Warnings "-inexact-float".

Lemma filter_kept_drop (a sep b : str) :
  forallb (fun c => negb (kept c)) sep = true ->
  filter kept (a ++ sep ++ b) = filter kept (a ++ b).
Proof.
  intro H. rewrite !filter_app. f_equal.
  replace (filter kept sep) with (@nil codepoint); [reflexivity|].
  induction sep as [|c sep IH]; [reflexivity|].
  cbn [forallb] in H. apply andb_true_iff in H. destruct H as [Hc H].
  apply negb_true_iff in Hc. cbn [filter]. rewrite Hc. auto.
Qed.

(** X1.  [_clean_price] reads the digits and dots of the whole text as
    one token: whatever stands between two numbers, blanks, currency
    signs, a dash or a thousands separator, is dropped before
    [split()] runs, so a price range collapses into one concatenated
    numeral instead of yielding its first number. *)
Theorem clean_price_concatenates (a sep b : str) :
  forallb (fun c => negb (isdigit c || (c =? dot)%N)) sep = true ->
  _clean_price (a ++ sep ++ b) = _clean_price (a ++ b).
Proof.
  intro H. rewrite !clean_price_eq. now rewrite (filter_kept_drop a sep b H).
Qed.

Lemma clean_price_concatenates_witness :
  forallb (fun c => negb (isdigit c || (c =? dot)%N)) (lit " - ") = true /\
  _clean_price (lit "100" ++ lit " - " ++ lit "200") = _clean_price (lit "100" ++ lit "200") /\
  _clean_price (lit "100" ++ lit "200") = Ok (Prim2SF 100200%float).
Proof.
  split; [vm_compute; reflexivity|].
  split; [|vm_compute; reflexivity].
  apply (@clean_price_concatenates (lit "100") (lit " - ") (lit "200")).
  vm_compute. reflexivity.
Defined.

(** The number of dots in a text. *)
Definition dots (s : str) : nat := List.length (filter (fun c => (c =? dot)%N) s).

Lemma dots_app (a b : str) : dots (a ++ b) = dots a + dots b.
Proof. unfold dots. now rewrite filter_app, length_app. Qed.

Lemma dots_decimal (ds : str) :
  Forall (fun c => isdecimal c = true) ds -> dots ds = 0.
Proof.
  induction 1 as [|c ds Hc _ IH]; [reflexivity|].
  unfold dots in *. cbn [filter]. now rewrite (isdecimal_not_dot _ Hc).
Qed.

(** A string that [float] accepts has at most one dot. *)
Lemma float_dots (s : str) (v : pyfloat) : Py.float s = Ok v -> dots s <= 1.
Proof.
  unfold Py.float. pose proof (span_decimal_app s) as A.
  pose proof (span_decimal_digits s) as D.
  destruct (span_decimal s) as [ip r]. cbn [fst snd] in *.
  destruct r as [|c r'].
  - intros _. rewrite <- A, app_nil_r, (dots_decimal D). lia.
  - destruct (c =? dot)%N eqn:E; [|discriminate].
    pose proof (span_decimal_app r') as A'.
    pose proof (span_decimal_digits r') as D'.
    destruct (span_decimal r') as [fp r'']. cbn [fst snd] in *.
    destruct r''; [|discriminate]. intros _.
    rewrite <- A, <- A', app_nil_r.
    change (ip ++ c :: fp) with (ip ++ [c] ++ fp).
    rewrite !dots_app, (dots_decimal D), (dots_decimal D').
    unfold dots. cbn [filter]. rewrite E. cbn. lia.
Qed.

Lemma dots_kept (text : str) : dots (filter kept text) = dots text.
Proof.
  induction text as [|c text IH]; [reflexivity|].
  unfold dots in *. cbn [filter]. unfold kept at 1.
  destruct (c =? dot)%N eqn:E.
  - rewrite orb_true_r. cbn [filter]. rewrite E. cbn [List.length]. now rewrite IH.
  - rewrite orb_false_r. destruct (isdigit c); [|exact IH].
    cbn [filter]. now rewrite E.
Qed.

(** X2.  A text with two or more dots has price 0.0, whatever its
    digits: the dots all survive the cleaning and [float] rejects the
    token. *)
Theorem clean_price_two_dots (price_text : str) :
  2 <= dots price_text -> _clean_price price_text = Ok zero.
Proof.
  intro H. rewrite clean_price_eq. unfold Spec.parse_or_zero.
  destruct (Py.float (filter kept price_text)) as [v|e] eqn:E; [|reflexivity].
  apply float_dots in E. rewrite dots_kept in E. lia.
Qed.

Lemma clean_price_two_dots_witness :
  2 <= dots (lit "1.234.567") /\ _clean_price (lit "1.234.567") = Ok zero.
Proof.
  split; [vm_compute; lia|].
  apply (@clean_price_two_dots (lit "1.234.567")). vm_compute. lia.
Defined.

Lemma first_numeral_skips (pre text : str) :
  forallb (fun c => negb (isdecimal c)) pre = true ->
  Spec.first_numeral (pre ++ text) = Spec.first_numeral text.
Proof.
  induction pre as [|c pre IH]; [reflexivity|].
  cbn [forallb]. intro H. apply andb_true_iff in H. destruct H as [Hc H].
  apply negb_true_iff in Hc. cbn [app Spec.first_numeral]. rewrite Hc. auto.
Qed.

(** X3.  [_clean_rating] ignores everything in front of the first
    decimal digit. *)
Theorem clean_rating_skips_prefix (pre rating_text : str) :
  forallb (fun c => negb (isdecimal c)) pre = true ->
  _clean_rating (pre ++ rating_text) = _clean_rating rating_text.
Proof.
  intro H. rewrite !clean_rating_eq. unfold Spec.parseRating.
  now rewrite (first_numeral_skips pre rating_text H).
Qed.

Lemma clean_rating_skips_prefix_witness :
  forallb (fun c => negb (isdecimal c)) (lit "Scored ") = true /\
  _clean_rating (lit "Scored " ++ lit "8.3") = _clean_rating (lit "8.3").
Proof.
  split; [vm_compute; reflexivity|].
  apply (@clean_rating_skips_prefix (lit "Scored ") (lit "8.3")).
  vm_compute. reflexivity.
Defined.

End NormalizerEdgeCases.

(* ================================================================== *)
(** * Further properties of the selector loops *)
(* ================================================================== *)

(** A driver on which nothing ever appears: every wait times out. *)
Module Offline.
Import Py Selenium.

Definition driver : Driver unit := {|
  get := fun _ w => (Ok tt, w);
  wait_presence := fun _ w => (Raise TimeoutException, w);
  wait_clickable := fun _ w => (Raise TimeoutException, w);
  find_elements := fun _ w => (Ok [], w);
  click := fun _ w => (Ok tt, w);
  execute_script_click := fun _ w => (Ok tt, w);
  now := fun _ => 0%Z
|}.

End Offline.

Section SelectorLoops.
Import Py Selenium HotelScraper Trace.
Variable W : Type.
Variable drv : Driver W.

(** The selectors waited for, in call order. *)
Definition waited (tr : list Call) : list string :=
  flat_map (fun c => match c with CallWaitClickable sel => [sel] | _ => [] end) tr.

(** The clicks issued, of either kind. *)
Definition clicks (tr : list Call) : nat :=
  List.length (filter (fun c => match c with
                                | CallClick _ | CallExecuteScriptClick _ => true
                                | _ => false
                                end) tr).

Lemma waited_app (a b : list Call) : waited (a ++ b) = waited a ++ waited b.
Proof. unfold waited. apply flat_map_app. Qed.

Lemma clicks_app (a b : list Call) : clicks (a ++ b) = clicks a + clicks b.
Proof. unfold clicks. now rewrite filter_app, length_app. Qed.

(** What one selector loop did: it appended no record; it waited for
    the candidates in their declared order, each at most once, up to some
    point; every click followed a wait; [True] was returned right after a
    click, [False], when the loop ran to its end, after all candidates. *)
Definition loop_summary (click_of : Handle -> Call) (selectors : list string)
    (r : result bool) (ds : list Hotel) (tr : list Call) : Prop :=
  ds = [] /\
  (exists k, waited tr = firstn k selectors) /\
  clicks tr <= List.length (waited tr) /\
  (r = Ok true -> exists pre h, tr = pre ++ [click_of h]) /\
  (r = Ok false -> waited tr = selectors).

Lemma loop_summary_step (click_of : Handle -> Call) (sel : string) (rest : list string)
    (more : list Call) (r : result bool) (ds : list Hotel) (tr : list Call) :
  waited more = [] -> clicks more <= 1 ->
  loop_summary click_of rest r ds tr ->
  loop_summary click_of (sel :: rest) r ([] ++ ds) ((CallWaitClickable sel :: more) ++ tr).
Proof.
  intros Wm Cm (-> & (k & Hk) & Hc & Ht & Hf).
  change (CallWaitClickable sel :: more) with ([CallWaitClickable sel] ++ more).
  unfold loop_summary. rewrite !waited_app, !clicks_app, Wm, Hk. cbn [app waited flat_map].
  split; [reflexivity|]. split; [exists (S k); reflexivity|].
  split; [rewrite Hk in Hc; cbn [List.length clicks filter]; lia|].
  split.
  - intro E. destruct (Ht E) as (pre & h & ->).
    exists (CallWaitClickable sel :: more ++ pre), h.
    cbn [app]. now rewrite <- app_assoc.
  - intro E. f_equal. rewrite <- Hk. exact (Hf E).
Qed.

Lemma runs_accept_cookies_loop_summary (selectors : list string) :
  runs (accept_cookies_loop drv selectors) (loop_summary CallClick selectors).
Proof.
  induction selectors as [|sel rest IH].
  - cbn [accept_cookies_loop]. apply runs_logger_then. apply runs_ret.
    repeat split; auto. + exists 0. reflexivity. + discriminate.
  - cbn [accept_cookies_loop].
    eapply runs_bind with
      (Q1 := fun r ds tr => ds = [] /\ exists more,
                 tr = CallWaitClickable sel :: more /\ waited more = [] /\ clicks more <= 1 /\
                 (r = Ok true -> exists h, more = [CallClick h])).
    + eapply runs_try_catch with
        (Q1 := fun r ds tr => ds = [] /\ exists more,
                 tr = CallWaitClickable sel :: more /\ waited more = [] /\ clicks more <= 1 /\
                 (r = Ok true -> exists h, more = [CallClick h])).
      * eapply runs_bind with
          (Q1 := fun r ds tr => ds = [] /\ tr = [CallWaitClickable sel]).
        -- apply runs_driver_call. auto.
        -- intros h ds1 tr1 [-> ->].
           eapply runs_bind with (Q1 := fun r ds tr => ds = [] /\ tr = [CallClick h]).
           ++ apply runs_driver_call. auto.
           ++ intros [] ds2 tr2 [-> ->]. apply runs_logger_then. apply runs_ret.
              split; [reflexivity|]. exists [CallClick h]. cbn. eauto 6.
           ++ intros e ds tr [-> ->]. split; [reflexivity|].
              exists [CallClick h]. cbn. repeat split; auto. discriminate.
        -- intros e ds tr [-> ->]. split; [reflexivity|]. exists [].
           cbn. repeat split; auto. discriminate.
      * auto.
      * intros e ds1 tr1 [-> (more & -> & Wm & Cm & _)].
        destruct (is_TimeoutException e).
        -- apply runs_ret. rewrite !app_nil_r. split; [reflexivity|].
           exists more. repeat split; auto. discriminate.
        -- split; [reflexivity|]. exists more. repeat split; auto. discriminate.
    + intros returned ds1 tr1 [-> (more & -> & Wm & Cm & Ht)].
      destruct returned.
      * apply runs_ret. destruct (Ht eq_refl) as [h ->]. rewrite !app_nil_r.
        unfold loop_summary. cbn.
        split; [reflexivity|]. split; [exists 1; reflexivity|]. split; [lia|].
        split; [|discriminate]. intros _. exists [CallWaitClickable sel], h. reflexivity.
      * eapply runs_weaken; [exact IH|].
        intros r ds tr H. now apply loop_summary_step.
    + intros e ds tr [-> (more & -> & Wm & Cm & _)].
      unfold loop_summary. change (CallWaitClickable sel :: more)
        with ([CallWaitClickable sel] ++ more).
      rewrite waited_app, clicks_app, Wm. cbn.
      split; [reflexivity|]. split; [exists 1; reflexivity|]. split; [lia|].
      split; discriminate.
Qed.

Lemma runs_next_page_loop_summary (selectors : list string) :
  runs (next_page_loop drv selectors) (loop_summary CallExecuteScriptClick selectors).
Proof.
  induction selectors as [|sel rest IH].
  - cbn [next_page_loop]. apply runs_logger_then. apply runs_ret.
    repeat split; auto. + exists 0. reflexivity. + discriminate.
  - cbn [next_page_loop].
    eapply runs_bind with
      (Q1 := fun r ds tr => ds = [] /\ exists more,
                 tr = CallWaitClickable sel :: more /\ waited more = [] /\ clicks more <= 1 /\
                 (r = Ok true -> exists h, more = [CallExecuteScriptClick h])).
    + eapply runs_try_catch with
        (Q1 := fun r ds tr => ds = [] /\ exists more,
                 tr = CallWaitClickable sel :: more /\ waited more = [] /\ clicks more <= 1 /\
                 (r = Ok true -> exists h, more = [CallExecuteScriptClick h])).
      * eapply runs_bind with
          (Q1 := fun r ds tr => ds = [] /\ tr = [CallWaitClickable sel]).
        -- apply runs_driver_call. auto.
        -- intros h ds1 tr1 [-> ->].
           eapply runs_bind with
             (Q1 := fun r ds tr => ds = [] /\ tr = [CallExecuteScriptClick h]).
           ++ apply runs_driver_call. auto.
           ++ intros [] ds2 tr2 [-> ->]. apply runs_logger_then. apply runs_ret.
              split; [reflexivity|]. exists [CallExecuteScriptClick h]. cbn. eauto 6.
           ++ intros e ds tr [-> ->]. split; [reflexivity|].
              exists [CallExecuteScriptClick h]. cbn. repeat split; auto. discriminate.
        -- intros e ds tr [-> ->]. split; [reflexivity|]. exists [].
           cbn. repeat split; auto. discriminate.
      * auto.
      * intros e ds1 tr1 [-> (more & -> & Wm & Cm & _)].
        destruct (is_TimeoutException e).
        -- apply runs_ret. rewrite !app_nil_r. split; [reflexivity|].
           exists more. repeat split; auto. discriminate.
        -- split; [reflexivity|]. exists more. repeat split; auto. discriminate.
    + intros returned ds1 tr1 [-> (more & -> & Wm & Cm & Ht)].
      destruct returned.
      * apply runs_ret. destruct (Ht eq_refl) as [h ->]. rewrite !app_nil_r.
        unfold loop_summary. cbn.
        split; [reflexivity|]. split; [exists 1; reflexivity|]. split; [lia|].
        split; [|discriminate]. intros _. exists [CallWaitClickable sel], h. reflexivity.
      * eapply runs_weaken; [exact IH|].
        intros r ds tr H. now apply loop_summary_step.
    + intros e ds tr [-> (more & -> & Wm & Cm & _)].
      unfold loop_summary. change (CallWaitClickable sel :: more)
        with ([CallWaitClickable sel] ++ more).
      rewrite waited_app, clicks_app, Wm. cbn.
      split; [reflexivity|]. split; [exists 1; reflexivity|]. split; [lia|].
      split; discriminate.
Qed.

End SelectorLoops.

Section SelectorLoopContracts.
Import Py Selenium HotelScraper Trace.

(** What a selector method did once its outer handler has run. *)
Definition method_summary (click_of : Handle -> Call) (selectors : list string)
    (r : result bool) (ds : list Hotel) (tr : list Call) : Prop :=
  (exists b, r = Ok b) /\ ds = [] /\
  (exists k, waited tr = firstn k selectors) /\
  clicks tr <= List.length (waited tr) /\
  (r = Ok true -> exists pre h, tr = pre ++ [click_of h]).

Lemma runs_selector_method (W : Type) (click_of : Handle -> Call)
    (selectors : list string) (loop : M W bool) (m : exn -> message) :
  runs loop (loop_summary click_of selectors) ->
  runs (try_catch loop is_Exception
          (fun e => bind (logger WARNING (m e)) (fun _ => ret false)))
       (method_summary click_of selectors).
Proof.
  intro L. eapply runs_try_catch; [exact L| |].
  - intros b ds tr (-> & K & C & T & _). unfold method_summary. eauto 10.
  - intros e ds tr (-> & K & C & _). cbn [is_Exception].
    apply runs_logger_then. apply runs_ret. rewrite !app_nil_r.
    unfold method_summary. repeat split; eauto. discriminate.
Qed.

(** X4.  [accept_cookies] never raises and never touches [self.data].
    It waits for the candidate selectors in their declared order, each at
    most once, and stops at the first one whose wait and click both
    succeed: when it returns [True] the click is the last call it made.
    Every click follows a wait. *)
Theorem accept_cookies_contract (W : Type) (drv : Driver W) (s : State W) :
  exists b s' tr,
    accept_cookies drv s = (Ok b, s') /\
    calls s' = calls s ++ tr /\
    data s' = data s /\
    (exists k, waited tr = firstn k cookie_selectors) /\
    clicks tr <= List.length (waited tr) /\
    (b = true -> exists pre h, tr = pre ++ [CallClick h]).
Proof.
  pose proof (@runs_selector_method W CallClick cookie_selectors
                (accept_cookies_loop drv cookie_selectors) MsgCouldNotHandleCookies
                (runs_accept_cookies_loop_summary drv cookie_selectors)) as R.
  destruct (R s) as (r & w & ds & lg & tr & E & ((b & ->) & -> & K & C & T)).
  exists b, (after s w [] lg tr), tr. split; [exact E|].
  cbn [after calls data]. rewrite app_nil_r.
  repeat split; auto. intros ->. now apply T.
Qed.

(** X5.  [_go_to_next_page] never raises and never touches [self.data]:
    a driver failure while navigating is answered with [False].  It waits
    for the candidate selectors in their declared order, each at most
    once, and returns [True] right after a script click that succeeded. *)
Theorem go_to_next_page_contract (W : Type) (drv : Driver W) (s : State W) :
  exists b s' tr,
    _go_to_next_page drv s = (Ok b, s') /\
    calls s' = calls s ++ tr /\
    data s' = data s /\
    (exists k, waited tr = firstn k next_selectors) /\
    clicks tr <= List.length (waited tr) /\
    (b = true -> exists pre h, tr = pre ++ [CallExecuteScriptClick h]).
Proof.
  pose proof (@runs_selector_method W CallExecuteScriptClick next_selectors
                (next_page_loop drv next_selectors) MsgErrorNavigating
                (runs_next_page_loop_summary drv next_selectors)) as R.
  destruct (R s) as (r & w & ds & lg & tr & E & ((b & ->) & -> & K & C & T)).
  exists b, (after s w [] lg tr), tr. split; [exact E|].
  cbn [after calls data]. rewrite app_nil_r.
  repeat split; auto. intros ->. now apply T.
Qed.

Lemma accept_cookies_loop_timeouts (W : Type) (drv : Driver W) (selectors : list string) :
  (forall sel w, fst (wait_clickable drv sel w) = Raise TimeoutException) ->
  forall s : State W, exists w,
    accept_cookies_loop drv selectors s =
    (Ok false, {| browser := w; data := data s;
                  log := log s ++ [(INFO, MsgNoCookieBanner)];
                  calls := calls s ++ List.map CallWaitClickable selectors |}).
Proof.
  intro H. induction selectors as [|sel rest IH]; intro s.
  - exists (browser s). cbn. now rewrite app_nil_r.
  - cbn [accept_cookies_loop]. unfold bind at 1. unfold try_catch.
    unfold bind at 1. unfold wait_until_clickable, driver_call.
    specialize (H sel (browser s)).
    destruct (wait_clickable drv sel (browser s)) as [r w1]. cbn [fst] in H. subst r.
    cbn [is_TimeoutException exn_eqb]. unfold ret at 1.
    destruct (IH {| browser := w1; data := data s; log := log s;
                    calls := calls s ++ [CallWaitClickable sel] |}) as [w E].
    exists w. rewrite E. cbn [data log calls List.map]. now rewrite <- app_assoc.
Qed.

Lemma next_page_loop_timeouts (W : Type) (drv : Driver W) (selectors : list string) :
  (forall sel w, fst (wait_clickable drv sel w) = Raise TimeoutException) ->
  forall s : State W, exists w,
    next_page_loop drv selectors s =
    (Ok false, {| browser := w; data := data s;
                  log := log s ++ [(INFO, MsgNoNextPageButton)];
                  calls := calls s ++ List.map CallWaitClickable selectors |}).
Proof.
  intro H. induction selectors as [|sel rest IH]; intro s.
  - exists (browser s). cbn. now rewrite app_nil_r.
  - cbn [next_page_loop]. unfold bind at 1. unfold try_catch.
    unfold bind at 1. unfold wait_until_clickable, driver_call.
    specialize (H sel (browser s)).
    destruct (wait_clickable drv sel (browser s)) as [r w1]. cbn [fst] in H. subst r.
    cbn [is_TimeoutException exn_eqb]. unfold ret at 1.
    destruct (IH {| browser := w1; data := data s; log := log s;
                    calls := calls s ++ [CallWaitClickable sel] |}) as [w E].
    exists w. rewrite E. cbn [data log calls List.map]. now rewrite <- app_assoc.
Qed.

(** X6.  When no candidate becomes clickable, [accept_cookies] has
    waited for all five selectors in order, clicked nothing, logged that
    no banner was found, and returns [False]. *)
Theorem accept_cookies_no_banner (W : Type) (drv : Driver W) (s : State W) :
  (forall sel w, fst (wait_clickable drv sel w) = Raise TimeoutException) ->
  exists s',
    accept_cookies drv s = (Ok false, s') /\
    calls s' = calls s ++ List.map CallWaitClickable cookie_selectors /\
    data s' = data s /\
    log s' = log s ++ [(INFO, MsgNoCookieBanner)].
Proof.
  intro H. destruct (accept_cookies_loop_timeouts drv cookie_selectors H s) as [w E].
  unfold accept_cookies, try_catch. rewrite E. eexists. split; [reflexivity|].
  cbn [calls data log]. auto.
Qed.

Lemma accept_cookies_no_banner_witness :
  (forall sel w, fst (wait_clickable Offline.driver sel w) = Raise TimeoutException) /\
  exists s',
    accept_cookies Offline.driver (__init__ tt) = (Ok false, s') /\
    calls s' = calls (__init__ tt) ++ List.map CallWaitClickable cookie_selectors /\
    data s' = data (__init__ tt) /\
    log s' = log (__init__ tt) ++ [(INFO, MsgNoCookieBanner)].
Proof.
  split; [intros; reflexivity|].
  apply (@accept_cookies_no_banner unit Offline.driver (__init__ tt)).
  intros; reflexivity.
Defined.

(** X7.  When no next-page control becomes clickable,
    [_go_to_next_page] has waited for all five selectors in order, clicked
    nothing, and returns [False]. *)
Theorem go_to_next_page_no_control (W : Type) (drv : Driver W) (s : State W) :
  (forall sel w, fst (wait_clickable drv sel w) = Raise TimeoutException) ->
  exists s',
    _go_to_next_page drv s = (Ok false, s') /\
    calls s' = calls s ++ List.map CallWaitClickable next_selectors /\
    data s' = data s /\
    log s' = log s ++ [(INFO, MsgNoNextPageButton)].
Proof.
  intro H. destruct (next_page_loop_timeouts drv next_selectors H s) as [w E].
  unfold _go_to_next_page, try_catch. rewrite E. eexists. split; [reflexivity|].
  cbn [calls data log]. auto.
Qed.

Lemma go_to_next_page_no_control_witness :
  (forall sel w, fst (wait_clickable Offline.driver sel w) = Raise TimeoutException) /\
  exists s',
    _go_to_next_page Offline.driver (__init__ tt) = (Ok false, s') /\
    calls s' = calls (__init__ tt) ++ List.map CallWaitClickable next_selectors /\
    data s' = data (__init__ tt) /\
    log s' = log (__init__ tt) ++ [(INFO, MsgNoNextPageButton)].
Proof.
  split; [intros; reflexivity|].
  apply (@go_to_next_page_no_control unit Offline.driver (__init__ tt)).
  intros; reflexivity.
Defined.

End SelectorLoopContracts.
